(** * Shallow embedding of [FS.Collection] (src/common.js) of Meteor-CollectionFS

    The constructor [FS.Collection(name, options)] is modelled step by step:
    the options defaults and [_.extend], the stores check, the normalisation
    of [options.filter], the deny rules installed on [self.files] and the
    process-wide registry [FS._collections]. The bodies of the three
    synchronisation callbacks the server registers with every store are
    modelled as functions on the files collection.

    JavaScript values are modelled by [JS.jsval]; a JavaScript exception by
    the [Throw] case of [res]. The file runs in sloppy mode (no "use strict"),
    so a property write on a primitive is silently ignored, while a property
    access on [undefined] or [null] raises a TypeError. A JavaScript string
    is modelled by its UTF-8 bytes. *)

From Stdlib Require Import String Ascii List ZArith Bool Lia.
Import ListNotations.

Set Warnings "-register-all".

Open Scope string_scope.

(* ------------------------------------------------------------------------- *)
(** ** JavaScript values, properties and exceptions *)

Module JS.

(** A JavaScript number, as far as the code looks at it: [NaN] or an
    integer. Its truthiness and [typeof] are all the code inspects, and a
    fraction or an infinity behaves there as a non-zero integer does. *)
Inductive number : Type :=
| Int (z : Z)
| NaN.

Coercion Int : Z >-> number.

(** Arrays carry their elements and their other own properties. *)
Inductive jsval : Type :=
| JUndef
| JNull
| JBool (b : bool)
| JNum (n : number)
| JStr (s : string)
| JArr (elems : list jsval) (props : list (string * jsval))
| JObj (props : list (string * jsval)).

Arguments JNum n%_Z.

(** The exceptions the modelled code can raise. *)
Inductive exn : Type :=
| TypeError
| Error (msg : string)
| MeteorError (code : Z) (reason : string).

(** Result of a computation that may throw. *)
Inductive res (A : Type) : Type :=
| Ok (a : A)
| Throw (e : exn).

Arguments Ok {A} a.
Arguments Throw {A} e.

Definition bind {A B : Type} (m : res A) (k : A -> res B) : res B :=
  match m with
  | Ok a => k a
  | Throw e => Throw e
  end.

Notation "x <- m ;; k" := (bind m (fun x => k))
  (at level 61, m at next level, right associativity).

Fixpoint mapM {A B : Type} (f : A -> res B) (l : list A) : res (list B) :=
  match l with
  | [] => Ok []
  | x :: r => y <- f x;; ys <- mapM f r;; Ok (y :: ys)
  end.

(** JavaScript truthiness. *)
Definition truthy (v : jsval) : bool :=
  match v with
  | JUndef | JNull => false
  | JBool b => b
  | JNum (Int n) => negb (Z.eqb n 0)
  | JNum NaN => false
  | JStr s => negb (String.eqb s "")
  | JArr _ _ | JObj _ => true
  end.

(** First binding of a key in a property list. *)
Fixpoint lookup {A : Type} (k : string) (ps : list (string * A)) : option A :=
  match ps with
  | [] => None
  | (k', v) :: r => if String.eqb k' k then Some v else lookup k r
  end.

(** [o[k] = x] on a property list: every binding of [k] takes the new
    value (the object keeps its key order); a missing key is appended. *)
Definition set_all {A : Type} (k : string) (x : A) (ps : list (string * A))
  : list (string * A) :=
  if existsb (fun p => String.eqb (fst p) k) ps
  then map (fun p => if String.eqb (fst p) k then (fst p, x) else p) ps
  else ps ++ [(k, x)].

(** [v.k] (the code never reads [length] or an index through this path). *)
Definition getp (v : jsval) (k : string) : res jsval :=
  match v with
  | JUndef | JNull => Throw TypeError
  | JObj ps | JArr _ ps =>
      Ok (match lookup k ps with Some x => x | None => JUndef end)
  | JBool _ | JNum _ | JStr _ => Ok JUndef
  end.

(** [v.k], or [undefined] where the access would throw. *)
Definition gp (v : jsval) (k : string) : jsval :=
  match getp v k with Ok x => x | Throw _ => JUndef end.

(** [v.k = x] in sloppy mode. *)
Definition setp (v : jsval) (k : string) (x : jsval) : res jsval :=
  match v with
  | JUndef | JNull => Throw TypeError
  | JObj ps => Ok (JObj (set_all k x ps))
  | JArr es ps => Ok (JArr es (set_all k x ps))
  | JBool _ | JNum _ | JStr _ => Ok v
  end.

(** Meteor's [Match.test(v, Object)]: a plain object (arrays and
    primitives do not match). *)
Definition match_Object (v : jsval) : bool :=
  match v with JObj _ => true | _ => false end.

(** Underscore's [_.isArray]. *)
Definition isArray (v : jsval) : bool :=
  match v with JArr _ _ => true | _ => false end.

(** [typeof v === "number"]. *)
Definition is_number (v : jsval) : bool :=
  match v with JNum _ => true | _ => false end.

(** The string function [String.prototype.toLowerCase] computes is the
    Unicode lower-case mapping; the code and the results below take it as
    a parameter [toLower]. [lower] is an instance of it on the letters of
    ASCII and Latin-1: [A-Z] (one byte), and [U+00C0-U+00DE] but
    [U+00D7] (the bytes 0xC3 0x80-0x9E in UTF-8), lowered by 0x20. *)
Definition lower_ascii (c : ascii) : ascii :=
  let n := nat_of_ascii c in
  if (65 <=? n)%nat && (n <=? 90)%nat then ascii_of_nat (n + 32) else c.

(** The second UTF-8 byte of an upper-case Latin-1 letter. *)
Definition latin1_upper (c : ascii) : bool :=
  let n := nat_of_ascii c in
  (128 <=? n)%nat && (n <=? 158)%nat && negb (n =? 151)%nat.

Fixpoint lower (s : string) : string :=
  match s with
  | EmptyString => EmptyString
  | String c r =>
      match r with
      | String d r' =>
          if (nat_of_ascii c =? 195)%nat && latin1_upper d
          then String c (String (ascii_of_nat (nat_of_ascii d + 32)) (lower r'))
          else String (lower_ascii c) (lower r)
      | EmptyString => String (lower_ascii c) EmptyString
      end
  end.

(** [v.toLowerCase()]: only strings have the method; on any other value
    the call raises a TypeError. *)
Definition toLowerCase (toLower : string -> string) (v : jsval) : res jsval :=
  match v with
  | JStr s => Ok (JStr (toLower s))
  | _ => Throw TypeError
  end.

(** Decimal spelling of an array index, the key [for ... in] yields. *)
Fixpoint digits (fuel n : nat) (acc : string) : string :=
  match fuel with
  | O => acc
  | S f =>
      let acc' := String (ascii_of_nat (48 + Nat.modulo n 10)) acc in
      if (n <? 10)%nat then acc' else digits f (Nat.div n 10) acc'
  end.

Definition string_of_nat (n : nat) : string := digits (S n) n "".

Fixpoint index_props {A : Type} (i : nat) (l : list A) : list (string * A) :=
  match l with
  | [] => []
  | x :: r => (string_of_nat i, x) :: index_props (S i) r
  end.

(** A property list read as an object: the first binding of a key wins. *)
Fixpoint dedup (seen : list string) (ps : list (string * jsval))
  : list (string * jsval) :=
  match ps with
  | [] => []
  | (k, v) :: r =>
      if existsb (String.eqb k) seen then dedup seen r
      else (k, v) :: dedup (k :: seen) r
  end.

(** The pairs [for (var prop in v)] visits, in order. *)
Definition enum_props (v : jsval) : list (string * jsval) :=
  match v with
  | JObj ps => dedup [] ps
  | JArr es ps => dedup [] (index_props 0 es ++ ps)
  | JStr s => dedup [] (index_props 0 (map (fun c => JStr (String c EmptyString)) (list_ascii_of_string s)))
  | _ => []
  end.

(** Underscore's [_.extend(obj, src)]: [for (prop in src) obj[prop] = src[prop]]. *)
Definition extend (obj : list (string * jsval)) (src : jsval) : list (string * jsval) :=
  fold_left (fun o p => set_all (fst p) (snd p) o) (enum_props src) obj.

(** Underscore's [_.isEmpty]. *)
Definition isEmpty (v : jsval) : bool :=
  match v with
  | JUndef | JNull => true
  | JArr es _ => match es with [] => true | _ => false end
  | JStr s => String.eqb s ""
  | JObj ps => match ps with [] => true | _ => false end
  | JBool _ | JNum _ => true
  end.

End JS.

Import JS.

(* ------------------------------------------------------------------------- *)
(** ** Filter normalisation (src/common.js, lines 73-105) *)

Module Filter.

(** [filter[k][sub] = x], written back into [filter] (the in-place
    mutation of the sub-object [filter[k]]). *)
Definition set_sub (f : jsval) (k sub : string) (x : jsval) : res jsval :=
  o <- getp f k;; o' <- setp o sub x;; setp f k o'.

Section Lowering.

(** The string function of [String.prototype.toLowerCase]. *)
Variable toLower : string -> string.

(** The loop [for (i ...) exts[i] = exts[i].toLowerCase()]. *)
Definition lower_elems (v : jsval) : res jsval :=
  match v with
  | JArr es ps => es' <- mapM (toLowerCase toLower) es;; Ok (JArr es' ps)
  | _ => Ok v
  end.

(** Lines 83-90 ([k = "allow"]) and 94-101 ([k = "deny"]). *)
Definition norm_extensions (k : string) (f : jsval) : res jsval :=
  o <- getp f k;;
  e <- getp o "extensions";;
  if negb (truthy e) || negb (isArray e)
  then set_sub f k "extensions" (JArr [] [])
  else (e' <- lower_elems e;; set_sub f k "extensions" e').

End Lowering.

(** Lines 91-93 ([k = "allow"]) and 102-104 ([k = "deny"]). *)
Definition norm_contentTypes (k : string) (f : jsval) : res jsval :=
  o <- getp f k;;
  c <- getp o "contentTypes";;
  if negb (truthy c) || negb (isArray c)
  then set_sub f k "contentTypes" (JArr [] [])
  else Ok f.

(** [if (self.options.filter) { ... }], lines 73-105. *)
Definition normalize_filter (toLower : string -> string) (f0 : jsval) : res jsval :=
  if negb (truthy f0) then Ok f0 else
  a <- getp f0 "allow";;
  f1 <- (if negb (truthy a) || negb (match_Object a)
         then setp f0 "allow" (JObj []) else Ok f0);;
  d <- getp f1 "deny";;
  f2 <- (if negb (truthy d) || negb (match_Object d)
         then setp f1 "deny" (JObj []) else Ok f1);;
  m <- getp f2 "maxSize";;
  f3 <- (if negb (truthy m) || negb (is_number m)
         then setp f2 "maxSize" JNull else Ok f2);;
  f4 <- norm_extensions toLower "allow" f3;;
  f5 <- norm_contentTypes "allow" f4;;
  f6 <- norm_extensions toLower "deny" f5;;
  norm_contentTypes "deny" f6.

End Filter.

(* ------------------------------------------------------------------------- *)
(** ** The constructor (src/common.js, lines 17-39, 73-105 and 153) *)

Module Collection.

(** The object [this] the constructor builds: its name and [self.options]. *)
Record t : Type := mk {
  name : string;
  options : list (string * jsval)
}.

(** [FS._collections], keyed by collection name; the first binding is the
    current one. *)
Definition registry : Type := list (string * t).

(** [self.options] before [_.extend], lines 20-24. *)
Definition default_options : list (string * jsval) :=
  [("filter", JNull); ("stores", JArr [] []); ("chunkSize", JNum (128 * 1024))].

Definition opt_get (k : string) (o : list (string * jsval)) : jsval :=
  match lookup k o with Some v => v | None => JUndef end.

(** The error thrown at line 38; the spec calls it ConfigurationError. *)
Definition ConfigurationError : exn :=
  Error "You must specify at least one store. Please consult the documentation.".

(** [new FS.Collection(name, options)] against the registry [reg], up to
    the registration of line 153, with [toLower] the function of
    [toLowerCase]. The steps in between that touch only Meteor (the
    [self.files] collection of lines 41-58, the deny/allow rules of lines
    109-141, modelled in [Admission]) are taken to return; the server block
    of lines 155-225 (the sync callbacks, whose bodies are modelled in
    [Sync]) is not part of this function. An exception leaves the registry
    as it was. *)
Definition construct_with (toLower : string -> string) (nm : string)
  (options : jsval) (reg : registry) : res t * registry :=
  let opts := extend default_options (if truthy options then options else JObj []) in
  if isEmpty (opt_get "stores" opts) then (Throw ConfigurationError, reg) else
  match Filter.normalize_filter toLower (opt_get "filter" opts) with
  | Throw e => (Throw e, reg)
  | Ok f =>
      let c := mk nm (set_all "filter" f opts) in
      (Ok c, (nm, c) :: reg)
  end.

(** The constructor with the [lower] instance of [toLowerCase]. *)
Definition construct (nm : string) (options : jsval) (reg : registry)
  : res t * registry :=
  construct_with lower nm options reg.

(** [collectionName] of line 52: the name of the [.files] collection that
    holds the file records. *)
Definition collectionName (name : string) : string := name ++ ".files".

End Collection.
(* ------------------------------------------------------------------------- *)
(** ** File records and the metadata store *)

(** A copy descriptor [copies[store.name]]: [{_id, name, type, size, utime}]. *)
Module Copy.
Record t : Type := mk {
  _id : string;
  name : string;
  type : string;
  size : Z;
  utime : Z
}.
End Copy.

(** The [info] object a store passes to its sync callbacks. *)
Module Info.
Record t : Type := mk {
  name : string;
  type : string;
  size : Z;
  utime : Z
}.
End Info.

(** The [fileInfo] object built by the sync callbacks (lines 161-174 and
    196-209): top-level metadata and the [copies] map. *)
Module FileInfo.
Record t : Type := mk {
  name : string;
  type : string;
  size : Z;
  utime : Z;
  copies : list (string * Copy.t)
}.
End FileInfo.

(** A document of [self.files]: its [_id], the metadata, the copies, the
    materialised content, and any other fields the document carries. *)
Module Doc.
Record t : Type := mk {
  _id : nat;
  name : string;
  type : string;
  size : Z;
  utime : Z;
  copies : list (string * Copy.t);
  data : list Byte.byte;
  rest : list (string * jsval)
}.
End Doc.

(** The documents of [self.files] in natural order, and the next fresh id. *)
Record fsState : Type := mkState {
  files : list Doc.t;
  next_id : nat
}.

(** Mongo's reading of a dotted field path: its segments, split at every
    '.'. *)
Fixpoint split_dot (s : string) : list string :=
  match s with
  | EmptyString => [EmptyString]
  | String c r =>
      if Ascii.eqb c "."%char then EmptyString :: split_dot r
      else match split_dot r with
           | [] => [String c EmptyString]
           | x :: xs => String c x :: xs
           end
  end.

(** The value at a field path, following embedded objects (the paths the
    code builds cross no array). *)
Fixpoint path_get (p : list string) (v : jsval) : option jsval :=
  match p with
  | [] => Some v
  | k :: r =>
      match v with
      | JObj ps => match lookup k ps with Some x => path_get r x | None => None end
      | _ => None
      end
  end.

(** A copy descriptor and a document as stored in [self.files]. *)
Definition copy_to_js (c : Copy.t) : jsval :=
  JObj [("_id", JStr (Copy._id c)); ("name", JStr (Copy.name c));
        ("type", JStr (Copy.type c)); ("size", JNum (Copy.size c));
        ("utime", JNum (Copy.utime c))].

Definition doc_to_js (d : Doc.t) : jsval :=
  JObj ([("_id", JNum (Z.of_nat (Doc._id d))); ("name", JStr (Doc.name d));
         ("type", JStr (Doc.type d)); ("size", JNum (Doc.size d));
         ("utime", JNum (Doc.utime d));
         ("copies", JObj (map (fun p => (fst p, copy_to_js (snd p))) (Doc.copies d)))]
        ++ Doc.rest d).

(** The selector [{'copies.' + store.name + '._id': storeId}] of lines
    185-186 and 215-216, as Mongo matches it against a document: the value
    at the dotted path must be the string [storeId]. *)
Definition copy_key_matches (store storeId : string) (d : Doc.t) : bool :=
  match path_get (split_dot ("copies." ++ store ++ "._id")) (doc_to_js d) with
  | Some (JStr s) => String.eqb s storeId
  | _ => false
  end.

(* ------------------------------------------------------------------------- *)
(** ** Operations of FS.File and FS.Collection used by the sync callbacks *)

Module Ops.

(** An [FS.File] object in memory: its record fields and its loaded data. *)
Record fsFile : Type := mkFile {
  info : FileInfo.t;
  content : list Byte.byte
}.

(** Modelled from the spec: the [FS.File] constructor (not in src/) takes
    the given record fields and holds no data yet. *)
Definition new_FSFile (fi : FileInfo.t) : fsFile := mkFile fi [].

(** Modelled from the spec: [FS.File.prototype.setDataFromBuffer] (not in
    src/) loads the raw bytes as the file's materialised content. *)
Definition setDataFromBuffer (f : fsFile) (buffer : list Byte.byte) (type : string) : fsFile :=
  mkFile (info f) buffer.

(** Modelled from the spec: [FS.Collection.prototype.insert] (not in src/),
    on the trusted path of a sync callback, inserts the file's record with
    its copies and content under a fresh id, with no filter re-run. *)
Definition insert (f : fsFile) (st : fsState) : res fsState :=
  let fi := info f in
  let d := Doc.mk (next_id st) (FileInfo.name fi) (FileInfo.type fi)
             (FileInfo.size fi) (FileInfo.utime fi) (FileInfo.copies fi)
             (content f) [] in
  Ok (mkState (files st ++ [d]) (S (next_id st))).

(** Meteor's [findOne(selector)]: the first matching document. *)
Definition findOne (sel : Doc.t -> bool) (st : fsState) : option Doc.t :=
  find sel (files st).

(** The modifier [{$set: fileInfo}] applied to one document: the five
    fields are replaced, everything else is kept. *)
Definition apply_set (fi : FileInfo.t) (d : Doc.t) : Doc.t :=
  Doc.mk (Doc._id d) (FileInfo.name fi) (FileInfo.type fi) (FileInfo.size fi)
    (FileInfo.utime fi) (FileInfo.copies fi) (Doc.data d) (Doc.rest d).

(** Modelled from the spec: [FS.File.prototype.update(modifier)] (not in
    src/) applies the modifier to the document with this file's [_id]. *)
Definition update (id : nat) (fi : FileInfo.t) (st : fsState) : res fsState :=
  Ok (mkState (map (fun d => if Nat.eqb (Doc._id d) id then apply_set fi d else d) (files st))
              (next_id st)).

(** Modelled from the spec: [FS.Collection.prototype.remove(selector)]
    (not in src/) deletes every matching document. *)
Definition remove (sel : Doc.t -> bool) (st : fsState) : res fsState :=
  Ok (mkState (filter (fun d => negb (sel d)) (files st)) (next_id st)).

End Ops.

(* ------------------------------------------------------------------------- *)
(** ** The sync callbacks of one store (src/common.js, lines 157-219) *)

Module Sync.

(** [fileInfo], built identically at lines 161-174 and 196-209. *)
Definition fileInfo (store storeId : string) (info : Info.t) : FileInfo.t :=
  FileInfo.mk (Info.name info) (Info.type info) (Info.size info) (Info.utime info)
    [(store, Copy.mk storeId (Info.name info) (Info.type info) (Info.size info) (Info.utime info))].

(** [insert: function(storeId, info, buffer)], lines 159-182. *)
Definition insert (store storeId : string) (info : Info.t) (buffer : list Byte.byte)
  (st : fsState) : res fsState :=
  let fsFile := Ops.new_FSFile (fileInfo store storeId info) in
  let fsFile := Ops.setDataFromBuffer fsFile buffer (Info.type info) in
  Ops.insert fsFile st.

(** [update: function(storeId, info)], lines 183-211. *)
Definition update (store storeId : string) (info : Info.t) (st : fsState) : res fsState :=
  match Ops.findOne (copy_key_matches store storeId) st with
  | None => Ok st
  | Some fsFile => Ops.update (Doc._id fsFile) (fileInfo store storeId info) st
  end.

(** [remove: function(storeId)], lines 212-218. *)
Definition remove (store storeId : string) (st : fsState) : res fsState :=
  Ops.remove (copy_key_matches store storeId) st.

End Sync.

(* ------------------------------------------------------------------------- *)
(** ** Admission: the filter and the deny rules on [self.files] (lines 107-141) *)

Module Admission.

(** The normalised filter as the Filter Engine reads it. *)
Record ruleSet : Type := mkRules {
  allowExtensions : list string;
  allowContentTypes : list string;
  denyExtensions : list string;
  denyContentTypes : list string;
  maxSize : option Z
}.

Definition strings_of (v : jsval) : list string :=
  match v with
  | JArr es _ => flat_map (fun e => match e with JStr s => [s] | _ => [] end) es
  | _ => []
  end.

(** The rule set read from a collection's [options.filter]. *)
Definition rules_of (f : jsval) : option ruleSet :=
  if truthy f then
    Some (mkRules (strings_of (gp (gp f "allow") "extensions"))
                  (strings_of (gp (gp f "allow") "contentTypes"))
                  (strings_of (gp (gp f "deny") "extensions"))
                  (strings_of (gp (gp f "deny") "contentTypes"))
                  (match gp f "maxSize" with JNum (Int n) => Some n | _ => None end))
  else None.

(** The text after the last dot of a file name ([None] without a dot). *)
Fixpoint ext_aux (s : string) (cur : option string) : option string :=
  match s with
  | EmptyString => cur
  | String c r =>
      if Ascii.eqb c "."%char then ext_aux r (Some "")
      else ext_aux r (option_map (fun x => x ++ String c EmptyString) cur)
  end.

Definition ext_of (nm : string) : string :=
  lower (match ext_aux nm None with Some e => e | None => "" end).

(** A pattern ending in [*] without its last character. *)
Fixpoint strip_star (p : string) : option string :=
  match p with
  | EmptyString => None
  | String c EmptyString => if Ascii.eqb c "*"%char then Some "" else None
  | String c r => option_map (String c) (strip_star r)
  end.

(** A content type matches a pattern that equals it, or a pattern
    [prefix*] of which it extends the prefix (["image/*"]). *)
Definition ct_match (p t : string) : bool :=
  String.eqb p t ||
  match strip_star p with Some q => String.prefix q t | None => false end.

(** Modelled from the spec: the Filter Engine behind
    [FS.File.prototype.fileIsAllowed] (not in src/), section 4.1. *)
Definition isAllowed (rs : option ruleSet) (nm type : string) (size : Z) : bool :=
  match rs with
  | None => true
  | Some r =>
      let e := ext_of nm in
      if existsb (String.eqb e) (denyExtensions r)
         || existsb (fun p => ct_match p type) (denyContentTypes r) then false
      else if (match maxSize r with Some m => Z.gtb size m | None => false end) then false
      else if negb (match allowExtensions r with [] => true | _ => false end)
              && negb (existsb (String.eqb e) (allowExtensions r)) then false
      else if negb (match allowContentTypes r with [] => true | _ => false end)
              && negb (existsb (fun p => ct_match p type) (allowContentTypes r)) then false
      else true
  end.

(** [fsFile.fileIsAllowed()] for a document of collection [c]. *)
Definition fileIsAllowed (c : Collection.t) (fsFile : Doc.t) : bool :=
  isAllowed (rules_of (Collection.opt_get "filter" (Collection.options c)))
    (Doc.name fsFile) (Doc.type fsFile) (Doc.size fsFile).

(** A [$set] modifier on the admission-relevant fields: the modifiers
    modelled. Meteor refuses an untrusted update whose modifier replaces the
    document or uses an operator outside its list before any rule runs. *)
Record modifier : Type := mkMod {
  set_name : option string;
  set_type : option string;
  set_size : option Z
}.

Definition modifier_fields (m : modifier) : list string :=
  (match set_name m with Some _ => ["name"] | None => [] end)
  ++ (match set_type m with Some _ => ["type"] | None => [] end)
  ++ (match set_size m with Some _ => ["size"] | None => [] end).

Definition apply_modifier (m : modifier) (d : Doc.t) : Doc.t :=
  Doc.mk (Doc._id d)
    (match set_name m with Some x => x | None => Doc.name d end)
    (match set_type m with Some x => x | None => Doc.type d end)
    (match set_size m with Some x => x | None => Doc.size d end)
    (Doc.utime d) (Doc.copies d) (Doc.data d) (Doc.rest d).

(** The deny rule for [insert], lines 110-112. *)
Definition deny_insert (c : Collection.t) (userId : option string) (fsFile : Doc.t) : bool :=
  negb (fileIsAllowed c fsFile).

(** The deny rule for [update], lines 113-118. Meteor passes as [fsFile]
    the current document, before the modifier is applied. *)
Definition deny_update (c : Collection.t) (userId : option string) (fsFile : Doc.t)
  (fields : list string) (m : modifier) : bool :=
  negb (fileIsAllowed c fsFile).

(** The allow rules registered for [self.files]. *)
Record allowRules : Type := mkAllow {
  allow_insert : list (option string -> Doc.t -> bool);
  allow_update : list (option string -> Doc.t -> list string -> modifier -> bool)
}.

(** The allow rules of lines 124-141, installed with the insecure package. *)
Definition insecure_allow : allowRules :=
  mkAllow [fun _ _ => true] [fun _ _ _ _ => true].

Definition access_denied : exn := MeteorError 403 "Access denied".

(** Meteor's validated insert from untrusted code: refused when a deny rule
    returns true, else accepted when some allow rule returns true. *)
Definition untrusted_insert (c : Collection.t) (al : allowRules) (userId : option string)
  (d : Doc.t) (st : fsState) : res fsState :=
  let d := Doc.mk (next_id st) (Doc.name d) (Doc.type d) (Doc.size d) (Doc.utime d)
             (Doc.copies d) (Doc.data d) (Doc.rest d) in
  if deny_insert c userId d then Throw access_denied
  else if existsb (fun a => a userId d) (allow_insert al)
  then Ok (mkState (files st ++ [d]) (S (next_id st)))
  else Throw access_denied.

(** Meteor's validated update of the document [id] from untrusted code: the
    rules see the current document, the field names and the modifier. *)
Definition untrusted_update (c : Collection.t) (al : allowRules) (userId : option string)
  (id : nat) (m : modifier) (st : fsState) : res fsState :=
  match find (fun d => Nat.eqb (Doc._id d) id) (files st) with
  | None => Ok st
  | Some d =>
      let fields := modifier_fields m in
      if deny_update c userId d fields m then Throw access_denied
      else if existsb (fun a => a userId d fields m) (allow_update al)
      then Ok (mkState (map (fun x => if Nat.eqb (Doc._id x) id then apply_modifier m x else x)
                            (files st)) (next_id st))
      else Throw access_denied
  end.

End Admission.

(* ------------------------------------------------------------------------- *)
(** ** Observations on a normalised filter *)

Module Obs.

Definition is_object (v : jsval) : bool :=
  match v with JObj _ | JArr _ _ => true | _ => false end.

Definition is_str (v : jsval) : Prop := exists s, v = JStr s.

Section Lowering.

(** The string function of [String.prototype.toLowerCase]. *)
Variable toLower : string -> string.

Definition lowerv (v : jsval) : jsval :=
  match v with JStr s => JStr (toLower s) | _ => v end.

(** [filter[k]] once lines 74-79 have run. *)
Definition sub0 (f : jsval) (k : string) : jsval :=
  let a := gp f k in if match_Object a then a else JObj [].

(** [filter.maxSize] once lines 80-82 have run. *)
Definition maxSize_after (f : jsval) : jsval :=
  let m := gp f "maxSize" in if truthy m && is_number m then m else JNull.

(** [filter[k].extensions] once normalised: the array lowercased, or [[]]. *)
Definition exts_after (f : jsval) (k : string) : jsval :=
  match gp (sub0 f k) "extensions" with
  | JArr es ps => JArr (map lowerv es) ps
  | _ => JArr [] []
  end.

(** [filter[k].contentTypes] once normalised: the array kept, or [[]]. *)
Definition cts_after (f : jsval) (k : string) : jsval :=
  match gp (sub0 f k) "contentTypes" with
  | JArr es ps => JArr es ps
  | _ => JArr [] []
  end.

(** The extensions array under [filter[k]], if any, holds only strings. *)
Definition strings_only (f : jsval) (k : string) : Prop :=
  forall es ps, gp (sub0 f k) "extensions" = JArr es ps -> Forall is_str es.

(** Two extension strings equal up to letter case. *)
Definition ci_str (a b : jsval) : Prop :=
  a = b \/ exists s t, a = JStr s /\ b = JStr t /\ toLower s = toLower t.

Definition props_rel (R : string -> jsval -> jsval -> Prop)
  (ps1 ps2 : list (string * jsval)) : Prop :=
  Forall2 (fun p q => fst p = fst q /\ R (fst p) (snd p) (snd q)) ps1 ps2.

(** Two values with the same shape whose properties are related by [R]. *)
Definition obj_rel (R : string -> jsval -> jsval -> Prop) (x y : jsval) : Prop :=
  match x, y with
  | JObj ps1, JObj ps2 => props_rel R ps1 ps2
  | JArr es1 ps1, JArr es2 ps2 => es1 = es2 /\ props_rel R ps1 ps2
  | _, _ => x = y
  end.

(** Two extension arrays equal up to the letter case of their strings. *)
Definition ci_arr (x y : jsval) : Prop :=
  match x, y with
  | JArr es1 ps1, JArr es2 ps2 => Forall2 ci_str es1 es2 /\ ps1 = ps2
  | _, _ => x = y
  end.

Definition R_sub (k : string) : jsval -> jsval -> Prop :=
  if String.eqb k "extensions" then ci_arr else eq.

Definition R_top (k : string) : jsval -> jsval -> Prop :=
  if String.eqb k "allow" || String.eqb k "deny" then obj_rel R_sub else eq.

(** Two filter options that differ only in the letter case of strings in
    [allow.extensions] or [deny.extensions]. *)
Definition ci_filter (f1 f2 : jsval) : Prop := obj_rel R_top f1 f2.

(** [filter[k]] of the normalised filter [g] against the supplied [f]:
    a plain object, [extensions] and [contentTypes] normalised, every other
    property as [f[k]] had it (when [f[k]] was a plain object). *)
Definition normalised_sub (f g : jsval) (k : string) : Prop :=
  match_Object (gp g k) = true
  /\ gp (gp g k) "extensions" = exts_after f k
  /\ gp (gp g k) "contentTypes" = cts_after f k
  /\ (forall s, s <> "extensions" -> s <> "contentTypes" -> gp (gp g k) s = gp (sub0 f k) s).

(** A lowercase string value: one [toLower] leaves as it is. *)
Definition is_lower_str (v : jsval) : Prop := exists s, v = JStr s /\ toLower s = s.

(** The property list of an object or array. *)
Definition props_of (v : jsval) : list (string * jsval) :=
  match v with JObj ps | JArr _ ps => ps | _ => [] end.

(** Every binding of [k] in [ps] has the value [x]. *)
Definition uniform (k : string) (x : jsval) (ps : list (string * jsval)) : Prop :=
  Forall (fun p => fst p = k -> snd p = x) ps.

(** [v] is an object whose property [k] is [x], in every binding of [k]
    (so that [v[k] = x] leaves [v] as it is). *)
Definition holds (v : jsval) (k : string) (x : jsval) : Prop :=
  is_object v = true /\ lookup k (props_of v) = Some x /\ uniform k x (props_of v).

(** [g[k]] is in the shape lines 74-79 and 83-104 leave it in. *)
Definition sub_normal (g : jsval) (k : string) : Prop :=
  exists o, holds g k o /\ match_Object o = true
    /\ (exists es ps, holds o "extensions" (JArr es ps) /\ Forall is_lower_str es)
    /\ isArray (gp o "contentTypes") = true.

(** A filter in the shape lines 73-105 leave it in. *)
Definition normal_filter (g : jsval) : Prop :=
  is_object g = true
  /\ ((truthy (gp g "maxSize") && is_number (gp g "maxSize")) = true
      \/ holds g "maxSize" JNull)
  /\ sub_normal g "allow" /\ sub_normal g "deny".

End Lowering.

(** [R] with plain equality at key [k]. *)
Definition upd_eq (R : string -> jsval -> jsval -> Prop) (k : string)
  : string -> jsval -> jsval -> Prop :=
  fun k' => if String.eqb k' k then eq else R k'.

Definition Rrefl (R : string -> jsval -> jsval -> Prop) : Prop := forall k a, R k a a.

(** Two results related by [S]: both values related, or the same exception. *)
Definition res_rel {A : Type} (S : A -> A -> Prop) (r1 r2 : res A) : Prop :=
  match r1, r2 with
  | Ok a, Ok b => S a b
  | Throw e1, Throw e2 => e1 = e2
  | _, _ => False
  end.

End Obs.

(* ------------------------------------------------------------------------- *)
(** ** Vocabulary of the properties *)

(** The reporting store's copy descriptor of [d] is current: it carries the
    event's [storeId] and the document's top-level metadata. *)
Definition copy_current (store storeId : string) (d : Doc.t) : Prop :=
  exists c, lookup store (Doc.copies d) = Some c /\ Copy._id c = storeId
    /\ Copy.name c = Doc.name d /\ Copy.type c = Doc.type d
    /\ Copy.size c = Doc.size d /\ Copy.utime c = Doc.utime d.

(** [copies[store]._id === storeId]: the descriptor of [d] under the key
    [store] carries [storeId]. *)
Definition has_copy (store storeId : string) (d : Doc.t) : bool :=
  match lookup store (Doc.copies d) with
  | Some c => String.eqb (Copy._id c) storeId
  | None => false
  end.

(** The name [s] holds no '.'. *)
Definition dotless (s : string) : bool :=
  forallb (fun c => negb (Ascii.eqb c "."%char)) (list_ascii_of_string s).

(** [r] throws, if at all, a TypeError. *)
Definition only_TypeError {A : Type} (r : res A) : Prop :=
  forall e, r = Throw e -> e = TypeError.

(** A concrete collection and two documents for the untrusted-update run. *)
Module AdmissionRun.

(** A collection whose filter allows only the extension [png]. *)
Definition png_options : jsval :=
  JObj [("stores", JArr [JObj [("name", JStr "s3")]] []);
        ("filter", JObj [("allow", JObj [("extensions", JArr [JStr "PNG"] [])])])].

Definition png_collection : Collection.t :=
  match fst (Collection.construct "images" png_options []) with
  | Ok c => c
  | Throw _ => Collection.mk "images" []
  end.

Definition png_doc : Doc.t := Doc.mk 0 "a.png" "image/png" 10 1 [] [] [].
Definition gif_doc : Doc.t := Doc.mk 0 "a.gif" "image/gif" 10 1 [] [] [].

End AdmissionRun.

(* ========================================================================= *)
(** * Properties *)

(* ------------------------------------------------------------------------- *)
(** ** Auxiliary lemmas on lists *)


Lemma filter_all_true {A : Type} (f : A -> bool) (l : list A) :
  (forall x, In x l -> f x = true) -> filter f l = l.
Proof.
  induction l as [|a l IH]; intros H; simpl; [reflexivity|].
  rewrite (H a (or_introl eq_refl)), IH; [reflexivity|].
  intros x Hx; apply H; right; exact Hx.
Qed.




(* ------------------------------------------------------------------------- *)
(** ** The selector [copies.<store>._id] *)

Lemma split_dot_nonnil (s : string) : split_dot s <> [].
Proof.
  destruct s as [|c r]; simpl; [discriminate|].
  destruct (Ascii.eqb c "."%char); [discriminate|].
  destruct (split_dot r); discriminate.
Qed.

Lemma split_dot_app_dot (a b : string) :
  split_dot (a ++ String "."%char b) = (split_dot a ++ split_dot b)%list.
Proof.
  induction a as [|c a IH]; simpl; [reflexivity|].
  rewrite IH; destruct (Ascii.eqb c "."%char); [reflexivity|].
  destruct (split_dot a) eqn:E; [exfalso; exact (split_dot_nonnil a E)|].
  reflexivity.
Qed.

Lemma split_dot_dotless (s : string) : dotless s = true -> split_dot s = [s].
Proof.
  unfold dotless; induction s as [|c r IH]; simpl; [reflexivity|].
  intros H; apply andb_prop in H; destruct H as [Hc Hr].
  apply negb_true_iff in Hc; rewrite Hc, (IH Hr); reflexivity.
Qed.

Lemma split_dot_dotted (s : string) :
  dotless s = false -> exists a b l, split_dot s = a :: b :: l.
Proof.
  unfold dotless; induction s as [|c r IH]; simpl; [discriminate|].
  destruct (Ascii.eqb c "."%char) eqn:Ec; simpl.
  - intros _; destruct (split_dot r) as [|b l] eqn:E;
      [exfalso; exact (split_dot_nonnil r E)|eauto].
  - intros H; destruct (IH H) as [a [b [l E]]]; rewrite E; eauto.
Qed.

Lemma lookup_copies_js (k : string) (cs : list (string * Copy.t)) :
  lookup k (map (fun p => (fst p, copy_to_js (snd p))) cs)
  = option_map copy_to_js (lookup k cs).
Proof.
  induction cs as [|[k' c] cs IH]; simpl; [reflexivity|].
  destruct (String.eqb k' k); [reflexivity|exact IH].
Qed.

Lemma path_get_doc_copies (p : list string) (d : Doc.t) :
  path_get ("copies" :: p) (doc_to_js d)
  = path_get p (JObj (map (fun p => (fst p, copy_to_js (snd p))) (Doc.copies d))).
Proof. reflexivity. Qed.

(** The code's selector finds [copies[store]] exactly when the store name
    holds no '.': a '.' turns the path into nested fields. *)
Lemma copy_key_matches_has_copy (store storeId : string) (d : Doc.t) :
  copy_key_matches store storeId d = dotless store && has_copy store storeId d.
Proof.
  unfold copy_key_matches.
  replace ("copies." ++ store ++ "._id")
    with ("copies" ++ String "."%char (store ++ String "."%char "_id")) by reflexivity.
  rewrite !split_dot_app_dot.
  destruct (dotless store) eqn:Hd.
  - rewrite (split_dot_dotless store Hd); simpl.
    rewrite lookup_copies_js; unfold has_copy.
    destruct (lookup store (Doc.copies d)); reflexivity.
  - destruct (split_dot_dotted store Hd) as [a [b [l E]]]; rewrite E.
    change (split_dot "copies") with ["copies"]; cbn [app]; rewrite path_get_doc_copies.
    cbn -[String.eqb]; rewrite lookup_copies_js.
    destruct (lookup a (Doc.copies d)) as [c|]; cbn -[String.eqb]; [|reflexivity].
    repeat match goal with |- context [String.eqb ?x b] => destruct (String.eqb x b) end;
      destruct l; reflexivity.
Qed.

Lemma copy_key_matches_dotless (store storeId : string) (d : Doc.t) :
  dotless store = true -> copy_key_matches store storeId d = has_copy store storeId d.
Proof. intros H; rewrite copy_key_matches_has_copy, H; reflexivity. Qed.

Lemma copy_key_matches_dotted (store storeId : string) (d : Doc.t) :
  dotless store = false -> copy_key_matches store storeId d = false.
Proof. intros H; rewrite copy_key_matches_has_copy, H; reflexivity. Qed.

Lemma copy_key_matches_true (store storeId : string) (d : Doc.t) :
  copy_key_matches store storeId d = true -> dotless store = true.
Proof.
  rewrite copy_key_matches_has_copy; intros H; apply andb_prop in H; apply H.
Qed.

(* ------------------------------------------------------------------------- *)
(** ** Sync callbacks *)




(** C4: the insert callback appends one new document under a fresh [_id]:
    its metadata is [info]'s, its [copies] hold exactly the reporting
    store's descriptor built from [storeId] and [info], and its content is
    the received buffer. *)
Theorem sync_insert_creates (store storeId : string) (info : Info.t)
  (buffer : list Byte.byte) (st : fsState) :
  exists d,
    Sync.insert store storeId info buffer st = Ok (mkState (files st ++ [d]) (S (next_id st)))
    /\ Doc._id d = next_id st
    /\ Doc.name d = Info.name info /\ Doc.type d = Info.type info
    /\ Doc.size d = Info.size info /\ Doc.utime d = Info.utime info
    /\ Doc.copies d = [(store, Copy.mk storeId (Info.name info) (Info.type info)
                                   (Info.size info) (Info.utime info))]
    /\ Doc.data d = buffer.
Proof.
  eexists; repeat split; reflexivity.
Qed.



(** C6: an update or remove event whose [storeId] matches no document
    returns normally and leaves the state as it was. *)
Theorem sync_miss_noop (store storeId : string) (info : Info.t) (st : fsState)
  (Hmiss : forall d, In d (files st) -> copy_key_matches store storeId d = false) :
  Sync.update store storeId info st = Ok st /\ Sync.remove store storeId st = Ok st.
Proof.
  split.
  - unfold Sync.update, Ops.findOne.
    destruct (find (copy_key_matches store storeId) (files st)) as [r|] eqn:E; [|reflexivity].
    destruct (find_some _ _ E) as [Hin Hm]; rewrite (Hmiss r Hin) in Hm; discriminate.
  - unfold Sync.remove, Ops.remove.
    rewrite filter_all_true; [destruct st; reflexivity|].
    intros x Hx; rewrite (Hmiss x Hx); reflexivity.
Qed.

Lemma sync_miss_noop_witness :
  let st := mkState [Doc.mk 0 "a.png" "image/png" 3 1
                       [("s3", Copy.mk "k1" "a.png" "image/png" 3 1)] [] []] 1 in
  (forall d, In d (files st) -> copy_key_matches "s3" "k2" d = false)
  /\ Sync.update "s3" "k2" (Info.mk "b" "t" 0 0) st = Ok st
  /\ Sync.remove "s3" "k2" st = Ok st.
Proof.
  intros st.
  assert (H : forall d, In d (files st) -> copy_key_matches "s3" "k2" d = false).
  { intros d [<-|[]]; reflexivity. }
  split; [exact H | exact (sync_miss_noop "s3" "k2" (Info.mk "b" "t" 0 0) st H)].
Defined.

(** C9: every document the insert or update callback writes carries, under
    the reporting store, a descriptor with the event's [storeId] and the
    same name, type, size and utime as its own top-level fields. *)
Theorem sync_copy_current (store storeId : string) (info : Info.t)
  (buffer : list Byte.byte) (st : fsState) :
  (forall st', Sync.insert store storeId info buffer st = Ok st' ->
     exists d, files st' = (files st ++ [d])%list /\ copy_current store storeId d)
  /\ (forall r st', Ops.findOne (copy_key_matches store storeId) st = Some r ->
        Sync.update store storeId info st = Ok st' ->
        forall d, In d (files st') -> Doc._id d = Doc._id r -> copy_current store storeId d).
Proof.
  split.
  - intros st' H; injection H as <-; eexists; split; [reflexivity|].
    eexists; simpl; rewrite String.eqb_refl; repeat split; reflexivity.
  - intros r st' Hr H d Hd Hid.
    unfold Sync.update in H; rewrite Hr in H; injection H as <-.
    simpl in Hd; apply in_map_iff in Hd; destruct Hd as [x [<- Hx]].
    destruct (Nat.eqb (Doc._id x) (Doc._id r)) eqn:E.
    + eexists; simpl; rewrite String.eqb_refl; repeat split; reflexivity.
    + apply Nat.eqb_neq in E; contradiction.
Qed.

(* ------------------------------------------------------------------------- *)
(** ** Property lists, [_.extend] and the options *)

Lemma lookup_app {A : Type} (k : string) (l1 l2 : list (string * A)) :
  lookup k (l1 ++ l2) = match lookup k l1 with Some v => Some v | None => lookup k l2 end.
Proof.
  induction l1 as [|[k' v] l1 IH]; simpl; [reflexivity|].
  destruct (String.eqb k' k); [reflexivity|exact IH].
Qed.

Lemma lookup_set_all_same {A : Type} (k : string) (x : A) (ps : list (string * A)) :
  lookup k (set_all k x ps) = Some x.
Proof.
  unfold set_all.
  destruct (existsb (fun p => String.eqb (fst p) k) ps) eqn:E.
  - induction ps as [|[k' v] ps IH]; simpl in *; [discriminate|].
    destruct (String.eqb k' k) eqn:Ek; simpl; rewrite Ek; [reflexivity|].
    exact (IH E).
  - rewrite lookup_app.
    assert (Hn : lookup k ps = None).
    { induction ps as [|[k' v] ps IH]; simpl in *; [reflexivity|].
      destruct (String.eqb k' k); [discriminate|exact (IH E)]. }
    rewrite Hn; simpl; rewrite String.eqb_refl; reflexivity.
Qed.

Lemma lookup_set_all_other {A : Type} (k k' : string) (x : A) (ps : list (string * A)) :
  k' <> k -> lookup k' (set_all k x ps) = lookup k' ps.
Proof.
  intros Hne; unfold set_all.
  destruct (existsb (fun p => String.eqb (fst p) k) ps).
  - induction ps as [|[k1 v] ps IH]; simpl; [reflexivity|].
    destruct (String.eqb k1 k) eqn:E1; simpl.
    + apply String.eqb_eq in E1; subst k1.
      destruct (String.eqb k k') eqn:E2; [apply String.eqb_eq in E2; congruence|exact IH].
    + destruct (String.eqb k1 k'); [reflexivity|exact IH].
  - rewrite lookup_app; destruct (lookup k' ps); [reflexivity|]; simpl.
    destruct (String.eqb k k') eqn:E2; [apply String.eqb_eq in E2; congruence|reflexivity].
Qed.

Lemma lookup_dedup (k : string) (seen : list string) (ps : list (string * jsval)) :
  lookup k (dedup seen ps) = if existsb (String.eqb k) seen then None else lookup k ps.
Proof.
  revert seen; induction ps as [|[k' v] ps IH]; intros seen; simpl.
  - destruct (existsb (String.eqb k) seen); reflexivity.
  - destruct (existsb (String.eqb k') seen) eqn:Es.
    + rewrite IH; destruct (existsb (String.eqb k) seen) eqn:Ek; [reflexivity|].
      destruct (String.eqb k' k) eqn:E; [|reflexivity].
      apply String.eqb_eq in E; subst k'; congruence.
    + simpl; destruct (String.eqb k' k) eqn:E.
      * apply String.eqb_eq in E; subst k'; rewrite Es; reflexivity.
      * rewrite IH; simpl.
        assert (Hs : String.eqb k k' = false) by (rewrite String.eqb_sym; exact E).
        rewrite Hs; reflexivity.
Qed.

Lemma dedup_keys (seen : list string) (ps : list (string * jsval)) :
  NoDup (map fst (dedup seen ps))
  /\ forall k, In k (map fst (dedup seen ps)) -> existsb (String.eqb k) seen = false.
Proof.
  revert seen; induction ps as [|[k' v] ps IH]; intros seen; simpl.
  - split; [constructor | intros k []].
  - destruct (existsb (String.eqb k') seen) eqn:Es; [apply IH|].
    destruct (IH (k' :: seen)) as [Hnd Hout]; simpl; split.
    + constructor; [|exact Hnd].
      intros Hin; specialize (Hout k' Hin); simpl in Hout.
      rewrite String.eqb_refl in Hout; discriminate.
    + intros k [<-|Hin]; [exact Es|].
      specialize (Hout k Hin); simpl in Hout.
      apply orb_false_iff in Hout; tauto.
Qed.

Lemma lookup_fold_set_all (k : string) (ps : list (string * jsval)) (o : list (string * jsval)) :
  NoDup (map fst ps) ->
  lookup k (fold_left (fun o p => set_all (fst p) (snd p) o) ps o)
  = match lookup k ps with Some v => Some v | None => lookup k o end.
Proof.
  revert o; induction ps as [|[k' v] ps IH]; intros o Hnd; simpl; [reflexivity|].
  inversion Hnd as [|? ? Hnot Hnd']; subst.
  rewrite (IH _ Hnd'); simpl.
  destruct (String.eqb k' k) eqn:E.
  - apply String.eqb_eq in E; subst k'.
    assert (Hn : lookup k ps = None).
    { clear - Hnot; induction ps as [|[k1 v1] ps IH]; simpl in *; [reflexivity|].
      destruct (String.eqb k1 k) eqn:E; [apply String.eqb_eq in E; tauto|].
      apply IH; tauto. }
    rewrite Hn; apply lookup_set_all_same.
  - destruct (lookup k ps); [reflexivity|].
    apply lookup_set_all_other; intros ->; rewrite String.eqb_refl in E; discriminate.
Qed.

Lemma enum_props_nodup (v : jsval) : NoDup (map fst (enum_props v)).
Proof.
  destruct v; simpl; try constructor; apply dedup_keys.
Qed.

(** The value of [self.options[k]] after [_.extend]: the supplied one if
    the options object has the key, else the default. *)
Lemma lookup_extend (k : string) (options : jsval) :
  lookup k (extend Collection.default_options
              (if truthy options then options else JObj []))
  = match lookup k (enum_props options) with
    | Some v => Some v
    | None => lookup k Collection.default_options
    end.
Proof.
  unfold extend; rewrite lookup_fold_set_all by apply enum_props_nodup.
  destruct (truthy options) eqn:T; [reflexivity|].
  destruct options as [| |b|n|s|es ps|ps]; simpl in T |- *; try reflexivity; try discriminate.
  destruct s; [reflexivity|discriminate].
Qed.

(* ------------------------------------------------------------------------- *)
(** ** The filter normalisation throws nothing but TypeError *)

Lemma only_TypeError_Ok {A : Type} (a : A) : only_TypeError (Ok a).
Proof. intros e H; discriminate. Qed.

Lemma only_TypeError_bind {A B : Type} (m : res A) (k : A -> res B) :
  only_TypeError m -> (forall a, only_TypeError (k a)) -> only_TypeError (bind m k).
Proof.
  intros Hm Hk e; destruct m as [a|e']; simpl; [apply Hk|].
  intros H; injection H as <-; apply Hm; reflexivity.
Qed.

Lemma only_TypeError_getp (v : jsval) (k : string) : only_TypeError (getp v k).
Proof. intros e; destruct v; simpl; congruence. Qed.

Lemma only_TypeError_setp (v : jsval) (k : string) (x : jsval) : only_TypeError (setp v k x).
Proof. intros e; destruct v; simpl; congruence. Qed.

Lemma only_TypeError_toLowerCase (toLower : string -> string) (v : jsval) :
  only_TypeError (toLowerCase toLower v).
Proof. intros e; destruct v; simpl; congruence. Qed.

Lemma only_TypeError_mapM (toLower : string -> string) (l : list jsval) :
  only_TypeError (mapM (toLowerCase toLower) l).
Proof.
  induction l as [|x l IH]; simpl; [apply only_TypeError_Ok|].
  apply only_TypeError_bind; [apply only_TypeError_toLowerCase|intros y].
  apply only_TypeError_bind; [exact IH|intros; apply only_TypeError_Ok].
Qed.

Create HintDb throws.
#[local] Hint Resolve only_TypeError_Ok only_TypeError_getp only_TypeError_setp
  only_TypeError_mapM : throws.

Ltac only_te :=
  repeat (match goal with
          | |- only_TypeError (bind _ _) => apply only_TypeError_bind; [|intro]
          | |- only_TypeError (if ?b then _ else _) => destruct b
          | |- only_TypeError (match ?v with _ => _ end) => destruct v
          end); auto with throws.

Lemma only_TypeError_set_sub (f : jsval) (k sub : string) (x : jsval) :
  only_TypeError (Filter.set_sub f k sub x).
Proof. unfold Filter.set_sub; only_te. Qed.

#[local] Hint Resolve only_TypeError_set_sub : throws.

Lemma only_TypeError_lower_elems (toLower : string -> string) (v : jsval) :
  only_TypeError (Filter.lower_elems toLower v).
Proof. unfold Filter.lower_elems; only_te. Qed.

#[local] Hint Resolve only_TypeError_lower_elems : throws.

Lemma only_TypeError_normalize_filter (toLower : string -> string) (f : jsval) :
  only_TypeError (Filter.normalize_filter toLower f).
Proof.
  unfold Filter.normalize_filter, Filter.norm_extensions, Filter.norm_contentTypes; only_te.
Qed.

(* ------------------------------------------------------------------------- *)
(** ** Construction *)

(** C2: with no [stores] option, or [stores] empty, [undefined] or [null],
    construction throws the stores error and leaves the registry as it
    was; with at least one store, it never throws that error. *)
Theorem construct_requires_store (nm : string) (options : jsval) (reg : Collection.registry) :
  ((lookup "stores" (enum_props options) = None
    \/ lookup "stores" (enum_props options) = Some JUndef
    \/ lookup "stores" (enum_props options) = Some JNull
    \/ exists ps, lookup "stores" (enum_props options) = Some (JArr [] ps)) ->
   Collection.construct nm options reg = (Throw Collection.ConfigurationError, reg))
  /\ (forall s ss ps, lookup "stores" (enum_props options) = Some (JArr (s :: ss) ps) ->
      fst (Collection.construct nm options reg) <> Throw Collection.ConfigurationError).
Proof.
  unfold Collection.construct, Collection.construct_with, Collection.opt_get.
  rewrite lookup_extend; split.
  - intros [H|[H|[H|[ps H]]]]; rewrite H; reflexivity.
  - intros s ss ps H; rewrite H; simpl.
    destruct (Filter.normalize_filter _ _) as [f|e] eqn:E; simpl; [discriminate|].
    intros Heq; injection Heq as ->.
    specialize (only_TypeError_normalize_filter _ _ _ E); discriminate.
Qed.

(** C10: after a successful construction, [options.chunkSize] is the
    supplied value when the options object has a [chunkSize] key, and
    131072 otherwise. *)
Theorem chunkSize_default_or_supplied (nm : string) (options : jsval)
  (reg : Collection.registry) (c : Collection.t) (reg' : Collection.registry)
  (Hok : Collection.construct nm options reg = (Ok c, reg')) :
  Collection.opt_get "chunkSize" (Collection.options c)
  = match lookup "chunkSize" (enum_props options) with
    | Some v => v
    | None => JNum 131072
    end.
Proof.
  unfold Collection.construct, Collection.construct_with in Hok.
  destruct (isEmpty _); [discriminate|].
  destruct (Filter.normalize_filter _ _) as [f|e]; [|discriminate].
  injection Hok as <- _; unfold Collection.opt_get; simpl.
  rewrite lookup_set_all_other by discriminate.
  rewrite lookup_extend; destruct (lookup "chunkSize" (enum_props options)); reflexivity.
Qed.

Lemma chunkSize_default_or_supplied_witness :
  let o1 := JObj [("stores", JArr [JObj [("name", JStr "s3")]] [])] in
  let o2 := JObj [("stores", JArr [JObj [("name", JStr "s3")]] []); ("chunkSize", JNum 65536)] in
  exists c1 c2 r1 r2,
    Collection.construct "images" o1 [] = (Ok c1, r1)
    /\ Collection.opt_get "chunkSize" (Collection.options c1) = JNum 131072
    /\ Collection.construct "images" o2 [] = (Ok c2, r2)
    /\ Collection.opt_get "chunkSize" (Collection.options c2) = JNum 65536.
Proof.
  intros o1 o2.
  do 4 eexists.
  split; [reflexivity|]; split.
  { exact (chunkSize_default_or_supplied "images" o1 [] _ _ eq_refl). }
  split; [reflexivity|].
  exact (chunkSize_default_or_supplied "images" o2 [] _ _ eq_refl).
Defined.

Lemma construct_requires_store_witness :
  Collection.construct "images" (JObj [("stores", JArr [] [])]) []
    = (Throw Collection.ConfigurationError, [])
  /\ fst (Collection.construct "images" (JObj [("stores", JArr [JObj []] [])]) [])
     <> Throw Collection.ConfigurationError.
Proof.
  split.
  - apply (proj1 (construct_requires_store "images" (JObj [("stores", JArr [] [])]) [])).
    right; right; right; exists []; reflexivity.
  - apply (proj2 (construct_requires_store "images" (JObj [("stores", JArr [JObj []] [])]) []) (JObj []) [] []).
    reflexivity.
Defined.

(* ------------------------------------------------------------------------- *)
(** ** Admission on untrusted updates *)

(** C1: the filter is not re-run on the updated metadata. With the filter
    [{allow: {extensions: ["PNG"]}}] and the insecure allow rules, an
    untrusted insert of [a.gif] is denied and one of [a.png] persists; the
    untrusted update [{$set: {name: "a.gif", type: "image/gif"}}] of that
    document then commits, because the update deny rule checks the document
    before the modifier, and the persisted document fails the filter. *)
Lemma untrusted_update_persists_disallowed :
  let c := AdmissionRun.png_collection in
  let m := Admission.mkMod (Some "a.gif") (Some "image/gif") None in
  fst (Collection.construct "images" AdmissionRun.png_options []) = Ok c
  /\ Admission.untrusted_insert c Admission.insecure_allow None AdmissionRun.gif_doc
       (mkState [] 0) = Throw Admission.access_denied
  /\ exists st1 st2 d,
       Admission.untrusted_insert c Admission.insecure_allow None AdmissionRun.png_doc
         (mkState [] 0) = Ok st1
       /\ (forall x, In x (files st1) -> Admission.fileIsAllowed c x = true)
       /\ Admission.untrusted_update c Admission.insecure_allow None 0 m st1 = Ok st2
       /\ In d (files st2)
       /\ Admission.fileIsAllowed c d = false.
Proof.
  intros c m.
  split; [vm_compute; reflexivity|].
  split; [vm_compute; reflexivity|].
  do 3 eexists; split; [vm_compute; reflexivity|].
  split; [intros x [<-|[]]; vm_compute; reflexivity|].
  split; [vm_compute; reflexivity|].
  split; [simpl; left; reflexivity|].
  vm_compute; reflexivity.
Qed.

(* ------------------------------------------------------------------------- *)
(** ** The normalisation, statement by statement *)

Section NormSteps.

Import Obs.

(** The string function of [String.prototype.toLowerCase]. *)
Variable toLower : string -> string.

Lemma bind_Ok {A B : Type} (a : A) (k : A -> res B) : bind (Ok a) k = k a.
Proof. reflexivity. Qed.

Lemma getp_obj (v : jsval) (k : string) :
  is_object v = true -> getp v k = Ok (gp v k).
Proof. destruct v; simpl; intros H; try discriminate; reflexivity. Qed.

Lemma gp_set_all (ps : list (string * jsval)) (k k' : string) (x : jsval) :
  (match lookup k' (set_all k x ps) with Some y => y | None => JUndef end)
  = if String.eqb k' k then x
    else match lookup k' ps with Some y => y | None => JUndef end.
Proof.
  destruct (String.eqb k' k) eqn:E.
  - apply String.eqb_eq in E; subst; rewrite lookup_set_all_same; reflexivity.
  - rewrite lookup_set_all_other; [reflexivity|].
    intros ->; rewrite String.eqb_refl in E; discriminate.
Qed.

Lemma setp_obj (v : jsval) (k : string) (x : jsval) :
  is_object v = true ->
  exists v', setp v k x = Ok v' /\ is_object v' = true
    /\ match_Object v' = match_Object v
    /\ forall k', gp v' k' = if String.eqb k' k then x else gp v k'.
Proof.
  destruct v; simpl; try discriminate; intros _;
    (eexists; split; [reflexivity|]; split; [reflexivity|]; split; [reflexivity|]);
    intros k'; unfold gp; simpl; apply gp_set_all.
Qed.

Lemma sub0_plain (f : jsval) (k : string) : match_Object (sub0 f k) = true.
Proof.
  unfold sub0; destruct (match_Object (gp f k)) eqn:E; [exact E|reflexivity].
Qed.

Lemma plain_is_object (v : jsval) : match_Object v = true -> is_object v = true.
Proof. destruct v; simpl; congruence. Qed.

Lemma plain_truthy (v : jsval) : match_Object v = true -> truthy v = true.
Proof. destruct v; simpl; congruence. Qed.

Lemma set_sub_obj (v : jsval) (k s : string) (x : jsval) :
  is_object v = true -> match_Object (gp v k) = true ->
  exists v', Filter.set_sub v k s x = Ok v' /\ is_object v' = true
    /\ match_Object (gp v' k) = true
    /\ (forall k', k' <> k -> gp v' k' = gp v k')
    /\ (forall s', gp (gp v' k) s' = if String.eqb s' s then x else gp (gp v k) s').
Proof.
  intros Hv Hk; unfold Filter.set_sub.
  rewrite (getp_obj v k Hv), bind_Ok.
  destruct (setp_obj (gp v k) s x (plain_is_object _ Hk)) as [o' [Eo [Oo [Po Go]]]].
  rewrite Eo, bind_Ok.
  destruct (setp_obj v k o' Hv) as [v' [Ev [Ov [_ Gv]]]].
  exists v'; split; [exact Ev|]; split; [exact Ov|].
  rewrite Gv, String.eqb_refl; split; [rewrite Po; exact Hk|]; split.
  - intros k' Hne; rewrite Gv; destruct (String.eqb k' k) eqn:E; [|reflexivity].
    apply String.eqb_eq in E; contradiction.
  - exact Go.
Qed.

(** Lines 74-76 ([k = "allow"]) and 77-79 ([k = "deny"]). *)
Lemma step_plain (v : jsval) (k : string) :
  is_object v = true ->
  exists v', (if negb (truthy (gp v k)) || negb (match_Object (gp v k))
              then setp v k (JObj []) else Ok v) = Ok v'
    /\ is_object v' = true /\ gp v' k = sub0 v k
    /\ (forall k', k' <> k -> gp v' k' = gp v k').
Proof.
  intros Hv; unfold sub0.
  destruct (match_Object (gp v k)) eqn:Ep.
  - rewrite (plain_truthy _ Ep); simpl.
    exists v; repeat split; auto.
  - rewrite orb_true_r.
    destruct (setp_obj v k (JObj []) Hv) as [v' [E [O [_ G]]]].
    exists v'; split; [exact E|]; split; [exact O|].
    rewrite G, String.eqb_refl; split; [reflexivity|].
    intros k' Hne; rewrite G; destruct (String.eqb k' k) eqn:Ek; [|reflexivity].
    apply String.eqb_eq in Ek; contradiction.
Qed.

(** Lines 80-82. *)
Lemma step_maxSize (v : jsval) :
  is_object v = true ->
  exists v', (if negb (truthy (gp v "maxSize")) || negb (is_number (gp v "maxSize"))
              then setp v "maxSize" JNull else Ok v) = Ok v'
    /\ is_object v' = true /\ gp v' "maxSize" = maxSize_after v
    /\ (forall k', k' <> "maxSize" -> gp v' k' = gp v k').
Proof.
  intros Hv; unfold maxSize_after.
  destruct (truthy (gp v "maxSize")), (is_number (gp v "maxSize")); simpl;
    try (exists v; repeat split; auto; fail);
    (destruct (setp_obj v "maxSize" JNull Hv) as [v' [E [O [_ G]]]];
     exists v'; split; [exact E|]; split; [exact O|];
     rewrite G; split; [reflexivity|];
     intros k' Hne; rewrite G; destruct (String.eqb k' "maxSize") eqn:Ek; [|reflexivity];
     apply String.eqb_eq in Ek; contradiction).
Qed.

Lemma mapM_lower_ok (es es' : list jsval) :
  mapM (toLowerCase toLower) es = Ok es' -> Forall is_str es /\ es' = map (lowerv toLower) es.
Proof.
  revert es'; induction es as [|x es IH]; intros es' H; simpl in H.
  - injection H as <-; split; [constructor|reflexivity].
  - destruct x; simpl in H; try discriminate.
    destruct (mapM (toLowerCase toLower) es) as [r|e] eqn:E; simpl in H; [|discriminate].
    injection H as <-; destruct (IH r eq_refl) as [Hs ->].
    split; [constructor; [eexists; reflexivity|exact Hs]|reflexivity].
Qed.

Lemma mapM_lower_strings (es : list jsval) :
  Forall is_str es -> mapM (toLowerCase toLower) es = Ok (map (lowerv toLower) es).
Proof.
  induction 1 as [|x es [s ->] _ IH]; simpl; [reflexivity|].
  rewrite IH; reflexivity.
Qed.

Lemma cond_arr (e : jsval) : negb (truthy e) || negb (isArray e) = negb (isArray e).
Proof. destruct e; simpl; rewrite ?orb_true_r; reflexivity. Qed.

(** Lines 83-90 ([k = "allow"]) and 94-101 ([k = "deny"]). *)
Lemma step_extensions (v : jsval) (k : string) :
  is_object v = true -> match_Object (gp v k) = true ->
  (forall v', Filter.norm_extensions toLower k v = Ok v' ->
     is_object v' = true /\ match_Object (gp v' k) = true
     /\ (forall k', k' <> k -> gp v' k' = gp v k')
     /\ (forall s, s <> "extensions" -> gp (gp v' k) s = gp (gp v k) s)
     /\ gp (gp v' k) "extensions"
        = match gp (gp v k) "extensions" with
          | JArr es ps => JArr (map (lowerv toLower) es) ps
          | _ => JArr [] []
          end
     /\ (forall es ps, gp (gp v k) "extensions" = JArr es ps -> Forall is_str es))
  /\ ((forall es ps, gp (gp v k) "extensions" = JArr es ps -> Forall is_str es) ->
      exists v', Filter.norm_extensions toLower k v = Ok v').
Proof.
  intros Hv Hk; unfold Filter.norm_extensions.
  rewrite (getp_obj v k Hv), bind_Ok.
  rewrite (getp_obj (gp v k) "extensions" (plain_is_object _ Hk)), bind_Ok.
  rewrite cond_arr.
  destruct (set_sub_obj v k "extensions" (JArr [] []) Hv Hk) as [w [Ew [Ow [Pw [Kw Sw]]]]].
  destruct (isArray (gp (gp v k) "extensions")) eqn:Ea; simpl.
  2:{ rewrite Ew; split.
      - intros v' H; injection H as <-.
        refine (conj Ow (conj Pw (conj Kw (conj _ (conj _ _))))).
        + intros s Hs; rewrite Sw; destruct (String.eqb s "extensions") eqn:Es;
            [apply String.eqb_eq in Es; contradiction|reflexivity].
        + rewrite Sw; simpl.
          destruct (gp (gp v k) "extensions"); simpl in Ea; try discriminate; reflexivity.
        + intros es ps H; rewrite H in Ea; discriminate.
      - intros _; exists w; reflexivity. }
  destruct (gp (gp v k) "extensions") as [| | | | |es ps|ps] eqn:Ee;
    simpl in Ea; try discriminate; simpl.
  split.
  - intros v' H.
    destruct (mapM (toLowerCase toLower) es) as [es'|e] eqn:Em; simpl in H; [|discriminate].
    destruct (mapM_lower_ok _ _ Em) as [Hs ->].
    destruct (set_sub_obj v k "extensions" (JArr (map (lowerv toLower) es) ps) Hv Hk)
      as [u [Eu [Ou [Pu [Ku Su]]]]].
    rewrite Eu in H; injection H as <-.
    refine (conj Ou (conj Pu (conj Ku (conj _ (conj _ _))))).
    + intros s Hne; rewrite Su; destruct (String.eqb s "extensions") eqn:Es;
        [apply String.eqb_eq in Es; contradiction|reflexivity].
    + rewrite Su; reflexivity.
    + intros es0 ps0 H; injection H as <- <-; exact Hs.
  - intros Hs; rewrite (mapM_lower_strings es (Hs es ps eq_refl)); simpl.
    destruct (set_sub_obj v k "extensions" (JArr (map (lowerv toLower) es) ps) Hv Hk)
      as [u [Eu _]].
    rewrite Eu; eexists; reflexivity.
Qed.

(** Lines 91-93 ([k = "allow"]) and 102-104 ([k = "deny"]). *)
Lemma step_contentTypes (v : jsval) (k : string) :
  is_object v = true -> match_Object (gp v k) = true ->
  exists v', Filter.norm_contentTypes k v = Ok v'
    /\ is_object v' = true /\ match_Object (gp v' k) = true
    /\ (forall k', k' <> k -> gp v' k' = gp v k')
    /\ (forall s, s <> "contentTypes" -> gp (gp v' k) s = gp (gp v k) s)
    /\ gp (gp v' k) "contentTypes"
       = match gp (gp v k) "contentTypes" with
         | JArr es ps => JArr es ps
         | _ => JArr [] []
         end.
Proof.
  intros Hv Hk; unfold Filter.norm_contentTypes.
  rewrite (getp_obj v k Hv), bind_Ok.
  rewrite (getp_obj (gp v k) "contentTypes" (plain_is_object _ Hk)), bind_Ok.
  rewrite cond_arr.
  destruct (set_sub_obj v k "contentTypes" (JArr [] []) Hv Hk) as [w [Ew [Ow [Pw [Kw Sw]]]]].
  destruct (isArray (gp (gp v k) "contentTypes")) eqn:Ea; simpl.
  - exists v; refine (conj eq_refl (conj Hv (conj Hk (conj _ (conj _ _))))); auto.
    destruct (gp (gp v k) "contentTypes"); simpl in Ea; try discriminate; reflexivity.
  - exists w; refine (conj Ew (conj Ow (conj Pw (conj Kw (conj _ _))))).
    + intros s Hs; rewrite Sw; destruct (String.eqb s "contentTypes") eqn:Es;
        [apply String.eqb_eq in Es; contradiction|reflexivity].
    + rewrite Sw; simpl.
      destruct (gp (gp v k) "contentTypes"); simpl in Ea; try discriminate; reflexivity.
Qed.

Lemma object_truthy (v : jsval) : is_object v = true -> truthy v = true.
Proof. destruct v; simpl; congruence. Qed.

Lemma sub0_gp (f f' : jsval) (k : string) : gp f' k = gp f k -> sub0 f' k = sub0 f k.
Proof. unfold sub0; intros ->; reflexivity. Qed.

(** A truthy filter that is not an object makes line 83 read a property of
    [undefined]. *)
Lemma normalize_filter_primitive (f : jsval) :
  is_object f = false -> truthy f = true -> Filter.normalize_filter toLower f = Throw TypeError.
Proof.
  intros Ho T; destruct f; try discriminate; unfold Filter.normalize_filter;
    rewrite T; reflexivity.
Qed.

Lemma normalize_filter_object (f : jsval) :
  is_object f = true ->
  (forall g, Filter.normalize_filter toLower f = Ok g ->
     is_object g = true
     /\ gp g "maxSize" = maxSize_after f
     /\ (forall k, k <> "allow" -> k <> "deny" -> k <> "maxSize" -> gp g k = gp f k)
     /\ strings_only f "allow" /\ strings_only f "deny"
     /\ (normalised_sub toLower) f g "allow" /\ (normalised_sub toLower) f g "deny")
  /\ (strings_only f "allow" -> strings_only f "deny" ->
      exists g, Filter.normalize_filter toLower f = Ok g).
Proof.
  intros Hobj; unfold Filter.normalize_filter.
  rewrite (object_truthy f Hobj); change (negb true) with false; cbv beta iota.
  rewrite (getp_obj f "allow" Hobj), bind_Ok.
  destruct (step_plain f "allow" Hobj) as [f1 [E1 [O1 [A1 B1]]]]; rewrite E1, bind_Ok.
  rewrite (getp_obj f1 "deny" O1), bind_Ok.
  destruct (step_plain f1 "deny" O1) as [f2 [E2 [O2 [A2 B2]]]]; rewrite E2, bind_Ok.
  rewrite (getp_obj f2 "maxSize" O2), bind_Ok.
  destruct (step_maxSize f2 O2) as [f3 [E3 [O3 [A3 B3]]]]; rewrite E3, bind_Ok.
  assert (H3a : gp f3 "allow" = sub0 f "allow").
  { rewrite B3, B2 by discriminate; exact A1. }
  assert (H2d : gp f2 "deny" = sub0 f "deny").
  { rewrite A2; apply sub0_gp; apply B1; discriminate. }
  assert (P3 : match_Object (gp f3 "allow") = true) by (rewrite H3a; apply sub0_plain).
  destruct (step_extensions f3 "allow" O3 P3) as [Post4 Prog4].
  split.
  - intros g H.
    destruct (Filter.norm_extensions toLower "allow" f3) as [f4|e] eqn:E4; [|discriminate].
    rewrite bind_Ok in H.
    destruct (Post4 f4 eq_refl) as [O4 [P4 [K4 [S4 [X4 Str4]]]]].
    destruct (step_contentTypes f4 "allow" O4 P4) as [f5 [E5 [O5 [P5 [K5 [S5 C5]]]]]].
    rewrite E5, bind_Ok in H.
    assert (H5d : gp f5 "deny" = sub0 f "deny").
    { rewrite K5, K4, B3 by discriminate; exact H2d. }
    assert (P5d : match_Object (gp f5 "deny") = true) by (rewrite H5d; apply sub0_plain).
    destruct (Filter.norm_extensions toLower "deny" f5) as [f6|e] eqn:E6; [|discriminate].
    rewrite bind_Ok in H.
    destruct (proj1 (step_extensions f5 "deny" O5 P5d) f6 E6) as [O6 [P6 [K6 [S6 [X6 Str6]]]]].
    destruct (step_contentTypes f6 "deny" O6 P6) as [g' [E7 [O7 [P7 [K7 [S7 C7]]]]]].
    rewrite E7 in H; injection H as <-.
    assert (Ga : gp g' "allow" = gp f5 "allow") by (rewrite K7, K6 by discriminate; reflexivity).
    refine (conj O7 (conj _ (conj _ (conj _ (conj _ (conj _ _)))))).
    + rewrite K7, K6, K5, K4, A3 by discriminate.
      unfold maxSize_after; rewrite B2, B1 by discriminate; reflexivity.
    + intros k Ha Hd Hm.
      rewrite K7, K6, K5, K4, B3, B2, B1 by assumption; reflexivity.
    + unfold strings_only; rewrite <- H3a; exact Str4.
    + unfold strings_only; rewrite <- H5d; exact Str6.
    + unfold normalised_sub, exts_after, cts_after; rewrite Ga, <- H3a.
      refine (conj P5 (conj _ (conj _ _))).
      * rewrite S5 by discriminate; exact X4.
      * rewrite C5, S4 by discriminate; reflexivity.
      * intros s Hx Hc; rewrite S5, S4 by assumption; reflexivity.
    + unfold normalised_sub, exts_after, cts_after; rewrite <- H5d.
      refine (conj P7 (conj _ (conj _ _))).
      * rewrite S7 by discriminate; exact X6.
      * rewrite C7, S6 by discriminate; reflexivity.
      * intros s Hx Hc; rewrite S7, S6 by assumption; reflexivity.
  - intros Hsa Hsd.
    assert (Hs4 : forall es ps, gp (gp f3 "allow") "extensions" = JArr es ps -> Forall is_str es).
    { rewrite H3a; exact Hsa. }
    destruct (Prog4 Hs4) as [f4 E4]; rewrite E4, bind_Ok.
    destruct (Post4 f4 E4) as [O4 [P4 [K4 _]]].
    destruct (step_contentTypes f4 "allow" O4 P4) as [f5 [E5 [O5 [P5 [K5 _]]]]].
    rewrite E5, bind_Ok.
    assert (H5d : gp f5 "deny" = sub0 f "deny").
    { rewrite K5, K4, B3 by discriminate; exact H2d. }
    assert (P5d : match_Object (gp f5 "deny") = true) by (rewrite H5d; apply sub0_plain).
    destruct (step_extensions f5 "deny" O5 P5d) as [Post6 Prog6].
    assert (Hs6 : forall es ps, gp (gp f5 "deny") "extensions" = JArr es ps -> Forall is_str es).
    { rewrite H5d; exact Hsd. }
    destruct (Prog6 Hs6) as [f6 E6]; rewrite E6, bind_Ok.
    destruct (Post6 f6 E6) as [O6 [P6 _]].
    destruct (step_contentTypes f6 "deny" O6 P6) as [g [E7 _]].
    exists g; exact E7.
Qed.

End NormSteps.

(* ------------------------------------------------------------------------- *)
(** ** Normalisation of related filters *)

Section NormRel.

Import Obs.

(** The string function of [String.prototype.toLowerCase]. *)
Variable toLower : string -> string.

Lemma res_rel_bind {A B : Type} (S : A -> A -> Prop) (T : B -> B -> Prop)
  (m1 m2 : res A) (k1 k2 : A -> res B) :
  res_rel S m1 m2 -> (forall a b, S a b -> res_rel T (k1 a) (k2 b)) ->
  res_rel T (bind m1 k1) (bind m2 k2).
Proof.
  destruct m1, m2; simpl; intros H Hk; try contradiction; auto.
Qed.

Lemma res_rel_mono {A : Type} (S S' : A -> A -> Prop) (r1 r2 : res A) :
  (forall a b, S a b -> S' a b) -> res_rel S r1 r2 -> res_rel S' r1 r2.
Proof. destruct r1, r2; simpl; auto. Qed.

Lemma res_rel_eq {A : Type} (r1 r2 : res A) : res_rel eq r1 r2 -> r1 = r2.
Proof. destruct r1, r2; simpl; intros H; try contradiction; subst; reflexivity. Qed.

Lemma res_rel_refl {A : Type} (S : A -> A -> Prop) (r : res A) :
  (forall a, S a a) -> res_rel S r r.
Proof. destruct r; simpl; auto. Qed.

Lemma res_rel_if {A : Type} (S : A -> A -> Prop) (b : bool) (x1 x2 y1 y2 : res A) :
  res_rel S x1 x2 -> res_rel S y1 y2 ->
  res_rel S (if b then x1 else y1) (if b then x2 else y2).
Proof. destruct b; auto. Qed.

Lemma Forall2_same {A : Type} (P : A -> A -> Prop) (l : list A) :
  (forall x, P x x) -> Forall2 P l l.
Proof. intros H; induction l; constructor; auto. Qed.

Lemma obj_rel_refl (R : string -> jsval -> jsval -> Prop) (x : jsval) :
  Rrefl R -> obj_rel R x x.
Proof.
  intros HR; destruct x; simpl; auto.
  - split; [reflexivity|]; apply Forall2_same; intros; split; auto.
  - apply Forall2_same; intros; split; auto.
Qed.

Lemma obj_rel_mono (R R' : string -> jsval -> jsval -> Prop) (x y : jsval) :
  (forall k a b, R k a b -> R' k a b) -> obj_rel R x y -> obj_rel R' x y.
Proof.
  intros HR; destruct x, y; simpl; auto; try (intros [? H]; split; [assumption|]);
    try intros H; eapply Forall2_impl; try exact H; intros [] [] [? ?]; split; auto.
Qed.

Lemma props_rel_eq (R : string -> jsval -> jsval -> Prop) (ps1 ps2 : list (string * jsval)) :
  (forall k a b, R k a b -> a = b) -> props_rel R ps1 ps2 -> ps1 = ps2.
Proof.
  intros HR H; induction H as [|[k1 v1] [k2 v2] ps1 ps2 [Hk Hv] _ IH]; [reflexivity|].
  simpl in *; subst k2; rewrite (HR _ _ _ Hv), IH; reflexivity.
Qed.

Lemma obj_rel_eq (R : string -> jsval -> jsval -> Prop) (x y : jsval) :
  (forall k a b, R k a b -> a = b) -> obj_rel R x y -> x = y.
Proof.
  intros HR; destruct x, y; simpl; auto; try discriminate;
    try (intros [-> H]; rewrite (props_rel_eq R _ _ HR H); reflexivity);
    intros H; rewrite (props_rel_eq R _ _ HR H); reflexivity.
Qed.

Lemma obj_rel_shape (R : string -> jsval -> jsval -> Prop) (x y : jsval) :
  obj_rel R x y ->
  truthy x = truthy y /\ match_Object x = match_Object y
  /\ isArray x = isArray y /\ is_number x = is_number y /\ is_object x = is_object y.
Proof.
  destruct x, y; simpl; intros H; try discriminate H;
    try (injection H as <-); repeat split.
Qed.

Lemma ci_arr_shape (x y : jsval) :
  (ci_arr toLower) x y -> truthy x = truthy y /\ isArray x = isArray y.
Proof.
  destruct x, y; simpl; intros H; try discriminate H;
    try (injection H as <-); split; reflexivity.
Qed.

Lemma props_rel_lookup (R : string -> jsval -> jsval -> Prop) (ps1 ps2 : list (string * jsval)) (k : string) :
  Rrefl R -> props_rel R ps1 ps2 ->
  R k (match lookup k ps1 with Some x => x | None => JUndef end)
      (match lookup k ps2 with Some x => x | None => JUndef end).
Proof.
  intros HR H; induction H as [|[k1 v1] [k2 v2] ps1 ps2 [Hk Hv] _ IH]; simpl in *; [apply HR|].
  subst k2; destruct (String.eqb k1 k) eqn:E; [|exact IH].
  apply String.eqb_eq in E; subst; exact Hv.
Qed.

Lemma getp_rel (R : string -> jsval -> jsval -> Prop) (x y : jsval) (k : string) :
  Rrefl R -> obj_rel R x y -> res_rel (R k) (getp x k) (getp y k).
Proof.
  intros HR; destruct x, y; simpl; try (intros H; discriminate H);
    try (intros H; injection H as <-; simpl; apply HR); try (intros; reflexivity);
    try (intros [_ H]; apply props_rel_lookup; assumption);
    try (intros H; apply props_rel_lookup; assumption);
    intros H; subst; simpl; apply HR.
Qed.

Lemma props_rel_existsb (R : string -> jsval -> jsval -> Prop) (ps1 ps2 : list (string * jsval)) (k : string) :
  props_rel R ps1 ps2 ->
  existsb (fun p => String.eqb (fst p) k) ps1 = existsb (fun p => String.eqb (fst p) k) ps2.
Proof.
  intros H; induction H as [|p q ps1 ps2 [Hk _] _ IH]; simpl; [reflexivity|].
  rewrite Hk, IH; reflexivity.
Qed.

Section SetAll.
Variables (R R' : string -> jsval -> jsval -> Prop) (k : string) (u v : jsval).
Hypothesis HR' : forall k' a b, k' <> k -> R k' a b -> R' k' a b.
Hypothesis Huv : R' k u v.

Lemma props_rel_map (ps1 ps2 : list (string * jsval)) :
  props_rel R ps1 ps2 ->
  props_rel R' (map (fun p => if String.eqb (fst p) k then (fst p, u) else p) ps1)
               (map (fun p => if String.eqb (fst p) k then (fst p, v) else p) ps2).
Proof.
  intros H; induction H as [|[k1 v1] [k2 v2] ps1 ps2 [Hk Hv] _ IH]; simpl in *; constructor; auto.
  subst k2; destruct (String.eqb k1 k) eqn:E; simpl.
  - apply String.eqb_eq in E; subst; split; auto.
  - apply String.eqb_neq in E; split; auto.
Qed.

Lemma props_rel_keep (ps1 ps2 : list (string * jsval)) :
  props_rel R ps1 ps2 -> existsb (fun p => String.eqb (fst p) k) ps1 = false ->
  props_rel R' ps1 ps2.
Proof.
  intros H; induction H as [|[k1 v1] [k2 v2] ps1 ps2 [Hk Hv] _ IH]; simpl in *; intros Hx;
    [constructor|].
  apply orb_false_iff in Hx; destruct Hx as [E Hx]; simpl in E.
  apply String.eqb_neq in E; constructor; [|apply IH; exact Hx].
  simpl in *; split; [exact Hk|apply HR'; assumption].
Qed.

Lemma props_rel_set_all (ps1 ps2 : list (string * jsval)) :
  props_rel R ps1 ps2 -> props_rel R' (set_all k u ps1) (set_all k v ps2).
Proof.
  intros H; unfold set_all; rewrite <- (props_rel_existsb R ps1 ps2 k H).
  destruct (existsb _ ps1) eqn:E; [apply props_rel_map; exact H|].
  apply Forall2_app; [apply props_rel_keep; assumption|].
  constructor; [split; [reflexivity|exact Huv]|constructor].
Qed.

Lemma setp_rel (x y : jsval) :
  obj_rel R x y -> res_rel (obj_rel R') (setp x k u) (setp y k v).
Proof.
  destruct x, y; simpl; intros H; try discriminate H;
    try (injection H as <-); simpl; try reflexivity.
  - destruct H as [<- H]; split; [reflexivity|]; apply props_rel_set_all; exact H.
  - apply props_rel_set_all; exact H.
Qed.

End SetAll.

Lemma upd_eq_refl (R : string -> jsval -> jsval -> Prop) (k : string) :
  Rrefl R -> Rrefl (upd_eq R k).
Proof. intros HR k' a; unfold upd_eq; destruct (String.eqb k' k); auto. Qed.

Lemma upd_eq_sub (R : string -> jsval -> jsval -> Prop) (k : string) :
  Rrefl R -> forall k' a b, upd_eq R k k' a b -> R k' a b.
Proof.
  intros HR k' a b; unfold upd_eq; destruct (String.eqb k' k); [intros <-; apply HR|auto].
Qed.

(** [set_sub] on related filters: once [filter[k][s]] is set to the same
    value, [filter[k]] of both sides is the same object. *)
Lemma set_sub_rel (R Rs : string -> jsval -> jsval -> Prop) (x y : jsval) (k s : string) (u : jsval) :
  Rrefl R -> Rrefl Rs ->
  (forall a b, R k a b -> obj_rel Rs a b) ->
  (forall s' a b, s' <> s -> Rs s' a b -> a = b) ->
  obj_rel R x y ->
  res_rel (obj_rel (upd_eq R k)) (Filter.set_sub x k s u) (Filter.set_sub y k s u).
Proof.
  intros HR HRs Hk Hs Hxy; unfold Filter.set_sub.
  apply res_rel_bind with (S := R k); [apply getp_rel; assumption|].
  intros o1 o2 Ho.
  apply res_rel_bind with (S := eq).
  - apply res_rel_mono with (S := obj_rel (upd_eq Rs s)).
    + intros a0 b0; apply obj_rel_eq; intros s' a b; unfold upd_eq.
      destruct (String.eqb s' s) eqn:E; [auto|].
      apply String.eqb_neq in E; apply Hs; exact E.
    + apply setp_rel with (R := Rs); [|unfold upd_eq; rewrite String.eqb_refl; reflexivity| apply Hk; exact Ho].
      intros k' a b Hne; unfold upd_eq; apply String.eqb_neq in Hne; rewrite Hne; auto.
  - intros o' o'' <-.
    apply setp_rel with (R := R); [|unfold upd_eq; rewrite String.eqb_refl; reflexivity|exact Hxy].
    intros k' a b Hne; unfold upd_eq; apply String.eqb_neq in Hne; rewrite Hne; auto.
Qed.

Lemma mapM_lower_ci (es1 es2 : list jsval) :
  Forall2 (ci_str toLower) es1 es2 -> mapM (toLowerCase toLower) es1 = mapM (toLowerCase toLower) es2.
Proof.
  intros H; induction H as [|x y es1 es2 Hxy _ IH]; [reflexivity|]; simpl.
  destruct Hxy as [<- | [s [t [-> [-> Hst]]]]].
  - rewrite IH; reflexivity.
  - simpl; rewrite Hst, IH; reflexivity.
Qed.

Lemma lower_elems_ci (e1 e2 : jsval) :
  (ci_arr toLower) e1 e2 -> Filter.lower_elems toLower e1 = Filter.lower_elems toLower e2.
Proof.
  destruct e1, e2; simpl; intros H; try discriminate H;
    try (injection H as <-); try reflexivity.
  destruct H as [H <-]; rewrite (mapM_lower_ci _ _ H); reflexivity.
Qed.

Lemma R_sub_refl : Rrefl (R_sub toLower).
Proof.
  intros k a; unfold R_sub; destruct (String.eqb k "extensions"); [|reflexivity].
  destruct a; simpl; auto.
  split; [apply Forall2_same; intros; left; reflexivity|reflexivity].
Qed.

Lemma R_top_refl : Rrefl (R_top toLower).
Proof.
  intros k a; unfold R_top; destruct (_ || _); [|reflexivity].
  apply obj_rel_refl, R_sub_refl.
Qed.

Lemma eq_refl_R : Rrefl (fun _ => eq).
Proof. intros k a; reflexivity. Qed.

(** Lines 83-90/94-101 on two filters whose [filter[k]] may differ in the
    case of the extension strings: afterwards they agree at [k]. *)
Lemma norm_extensions_rel (R : string -> jsval -> jsval -> Prop) (k : string) (x y : jsval) :
  Rrefl R -> (forall a b, R k a b -> obj_rel (R_sub toLower) a b) -> obj_rel R x y ->
  res_rel (obj_rel (upd_eq R k)) (Filter.norm_extensions toLower k x) (Filter.norm_extensions toLower k y).
Proof.
  intros HR Hk Hxy; unfold Filter.norm_extensions.
  assert (Hs : forall s' a b, s' <> "extensions" -> (R_sub toLower) s' a b -> a = b).
  { intros s' a b Hne; unfold R_sub; apply String.eqb_neq in Hne; rewrite Hne; auto. }
  apply res_rel_bind with (S := R k); [apply getp_rel; assumption|].
  intros o1 o2 Ho.
  apply res_rel_bind with (S := (ci_arr toLower));
    [apply (getp_rel (R_sub toLower)); [apply R_sub_refl|apply Hk; exact Ho]|].
  intros e1 e2 He.
  destruct (ci_arr_shape e1 e2 He) as [Ht Ha]; rewrite Ht, Ha.
  apply res_rel_if.
  - apply set_sub_rel with (Rs := (R_sub toLower)); auto using R_sub_refl.
  - rewrite (lower_elems_ci e1 e2 He).
    apply res_rel_bind with (S := eq); [apply res_rel_refl; reflexivity|].
    intros e' e'' <-; apply set_sub_rel with (Rs := (R_sub toLower)); auto using R_sub_refl.
Qed.

(** Lines 91-93/102-104 on two filters that agree at [k]. *)
Lemma norm_contentTypes_rel (R : string -> jsval -> jsval -> Prop) (k : string) (x y : jsval) :
  Rrefl R -> (forall a b, R k a b -> a = b) -> obj_rel R x y ->
  res_rel (obj_rel R) (Filter.norm_contentTypes k x) (Filter.norm_contentTypes k y).
Proof.
  intros HR Hk Hxy; unfold Filter.norm_contentTypes.
  apply res_rel_bind with (S := R k); [apply getp_rel; assumption|].
  intros o1 o2 Ho; apply Hk in Ho; subst o2.
  destruct (getp o1 "contentTypes") as [c|e]; simpl; [|reflexivity].
  apply res_rel_if; [|exact Hxy].
  apply res_rel_mono with (S := obj_rel (upd_eq R k)).
  - intros a b; apply obj_rel_mono, upd_eq_sub, HR.
  - apply set_sub_rel with (Rs := fun _ => eq); auto using eq_refl_R.
    intros a b Hab; apply Hk in Hab; subst b; apply obj_rel_refl, eq_refl_R.
Qed.


Lemma obj_rel_falsy (R : string -> jsval -> jsval -> Prop) (x y : jsval) :
  obj_rel R x y -> truthy x = false -> x = y.
Proof. destruct x, y; simpl; intros H Ht; try discriminate Ht; exact H. Qed.

Lemma final_rel_eq :
  forall k a b, upd_eq (upd_eq (R_top toLower) "allow") "deny" k a b -> a = b.
Proof.
  intros k a b; unfold upd_eq, R_top.
  destruct (String.eqb k "deny"), (String.eqb k "allow"); simpl; auto.
Qed.

(** Lines 73-105 give the same outcome (the same normalised filter, or the
    same exception) on two filters that differ only in the letter case of
    strings in [allow.extensions] and [deny.extensions]. *)
Lemma normalize_filter_ci (f1 f2 : jsval) :
  (ci_filter toLower) f1 f2 -> Filter.normalize_filter toLower f1 = Filter.normalize_filter toLower f2.
Proof.
  unfold ci_filter; intros H.
  destruct (obj_rel_shape _ _ _ H) as [Ht _].
  unfold Filter.normalize_filter; rewrite <- Ht.
  destruct (truthy f1) eqn:E; simpl negb; cbv iota;
    [|rewrite (obj_rel_falsy _ _ _ H E); reflexivity].
  apply res_rel_eq.
  (* lines 74-76 *)
  apply res_rel_bind with (S := (R_top toLower) "allow"); [apply getp_rel; [apply R_top_refl|exact H]|].
  intros a1 a2 Ha; change (obj_rel (R_sub toLower) a1 a2) in Ha.
  destruct (obj_rel_shape _ _ _ Ha) as [Ta [Oa _]]; rewrite Ta, Oa.
  apply res_rel_bind with (S := obj_rel (R_top toLower)).
  { apply res_rel_if; [|exact H].
    apply setp_rel with (R := (R_top toLower)); [intros; assumption|apply R_top_refl|exact H]. }
  intros g1 g2 Hg.
  (* lines 77-79 *)
  apply res_rel_bind with (S := (R_top toLower) "deny"); [apply getp_rel; [apply R_top_refl|exact Hg]|].
  intros d1 d2 Hd; change (obj_rel (R_sub toLower) d1 d2) in Hd.
  destruct (obj_rel_shape _ _ _ Hd) as [Td [Od _]]; rewrite Td, Od.
  apply res_rel_bind with (S := obj_rel (R_top toLower)).
  { apply res_rel_if; [|exact Hg].
    apply setp_rel with (R := (R_top toLower)); [intros; assumption|apply R_top_refl|exact Hg]. }
  clear g1 g2 Hg; intros g1 g2 Hg.
  (* lines 80-82 *)
  apply res_rel_bind with (S := (R_top toLower) "maxSize"); [apply getp_rel; [apply R_top_refl|exact Hg]|].
  intros m1 m2 Hm; change (m1 = m2) in Hm; subst m2.
  apply res_rel_bind with (S := obj_rel (R_top toLower)).
  { apply res_rel_if; [|exact Hg].
    apply setp_rel with (R := (R_top toLower)); [intros; assumption|apply R_top_refl|exact Hg]. }
  clear g1 g2 Hg; intros g1 g2 Hg.
  (* lines 83-93 *)
  apply res_rel_bind with (S := obj_rel (upd_eq (R_top toLower) "allow")).
  { apply norm_extensions_rel; [apply R_top_refl|intros a b Hab; exact Hab|exact Hg]. }
  clear g1 g2 Hg; intros g1 g2 Hg.
  apply res_rel_bind with (S := obj_rel (upd_eq (R_top toLower) "allow")).
  { apply norm_contentTypes_rel;
      [apply upd_eq_refl, R_top_refl|intros a b Hab; exact Hab|exact Hg]. }
  clear g1 g2 Hg; intros g1 g2 Hg.
  (* lines 94-104 *)
  apply res_rel_bind with (S := obj_rel (upd_eq (upd_eq (R_top toLower) "allow") "deny")).
  { apply norm_extensions_rel;
      [apply upd_eq_refl, R_top_refl|intros a b Hab; exact Hab|exact Hg]. }
  clear g1 g2 Hg; intros g1 g2 Hg.
  apply res_rel_mono with (S := obj_rel (upd_eq (upd_eq (R_top toLower) "allow") "deny")).
  { intros a b; apply obj_rel_eq, final_rel_eq. }
  apply norm_contentTypes_rel;
    [apply upd_eq_refl, upd_eq_refl, R_top_refl|intros a b Hab; exact Hab|exact Hg].
Qed.

End NormRel.

(* ------------------------------------------------------------------------- *)
(** ** The [lower] instance of [toLowerCase] is idempotent *)

Lemma lower_ascii_idem (c : ascii) : lower_ascii (lower_ascii c) = lower_ascii c.
Proof.
  destruct c as [b0 b1 b2 b3 b4 b5 b6 b7];
    destruct b0, b1, b2, b3, b4, b5, b6, b7; vm_compute; reflexivity.
Qed.

Lemma lower_ascii_195 (c : ascii) : (nat_of_ascii c =? 195)%nat = true -> lower_ascii c = c.
Proof.
  intros H; destruct c as [b0 b1 b2 b3 b4 b5 b6 b7];
    destruct b0, b1, b2, b3, b4, b5, b6, b7; vm_compute in H |- *;
    first [reflexivity | discriminate H].
Qed.

Lemma lower_ascii_not195 (c : ascii) :
  (nat_of_ascii (lower_ascii c) =? 195)%nat = (nat_of_ascii c =? 195)%nat.
Proof.
  destruct c as [b0 b1 b2 b3 b4 b5 b6 b7];
    destruct b0, b1, b2, b3, b4, b5, b6, b7; vm_compute; reflexivity.
Qed.

Lemma latin1_upper_lower_ascii (c : ascii) : latin1_upper (lower_ascii c) = latin1_upper c.
Proof.
  destruct c as [b0 b1 b2 b3 b4 b5 b6 b7];
    destruct b0, b1, b2, b3, b4, b5, b6, b7; vm_compute; reflexivity.
Qed.

(** A lowered Latin-1 letter is no upper-case letter, no lead byte 0xC3 and
    no ASCII letter. *)
Lemma latin1_shift (d : ascii) :
  latin1_upper d = true ->
  let d' := ascii_of_nat (nat_of_ascii d + 32) in
  latin1_upper d' = false /\ (nat_of_ascii d' =? 195)%nat = false /\ lower_ascii d' = d'.
Proof.
  intros H; destruct d as [b0 b1 b2 b3 b4 b5 b6 b7];
    destruct b0, b1, b2, b3, b4, b5, b6, b7; vm_compute in H |- *;
    first [discriminate H | split; [reflexivity | split; reflexivity]].
Qed.

Lemma lower_cons (c : ascii) (r : string) :
  lower (String c r)
  = match r with
    | String d r' =>
        if (nat_of_ascii c =? 195)%nat && latin1_upper d
        then String c (String (ascii_of_nat (nat_of_ascii d + 32)) (lower r'))
        else String (lower_ascii c) (lower r)
    | EmptyString => String (lower_ascii c) EmptyString
    end.
Proof. reflexivity. Qed.

(** A byte that starts no two-byte letter is lowered on its own. *)
Lemma lower_cons_single (c : ascii) (u : string) :
  (nat_of_ascii c =? 195)%nat = false
  \/ match u with String e _ => latin1_upper e = false | EmptyString => True end ->
  lower (String c u) = String (lower_ascii c) (lower u).
Proof.
  intros H; rewrite lower_cons; destruct u as [|e u']; [reflexivity|].
  destruct H as [H|H]; rewrite H; [reflexivity|].
  rewrite andb_false_r; reflexivity.
Qed.

Lemma lower_head (d : ascii) (r : string) :
  exists t, lower (String d r) = String (lower_ascii d) t.
Proof.
  rewrite lower_cons; destruct r as [|e r']; [eauto|].
  destruct ((nat_of_ascii d =? 195)%nat && latin1_upper e) eqn:E; [|eauto].
  apply andb_prop in E; destruct E as [Ed _].
  rewrite (lower_ascii_195 d Ed); eauto.
Qed.

Lemma lower_idem (s : string) : lower (lower s) = lower s.
Proof.
  remember (String.length s) as n eqn:En.
  revert s En; induction n as [n IH] using lt_wf_ind; intros s En; subst n.
  destruct s as [|c [|d r']]; [reflexivity | simpl; rewrite lower_ascii_idem; reflexivity|].
  rewrite (lower_cons c (String d r')).
  destruct ((nat_of_ascii c =? 195)%nat && latin1_upper d) eqn:E.
  - apply andb_prop in E; destruct E as [Ec Ed].
    destruct (latin1_shift d Ed) as [U1 [U2 U3]].
    rewrite lower_cons_single by (right; exact U1).
    rewrite lower_cons_single by (left; exact U2).
    rewrite (lower_ascii_195 c Ec), U3.
    rewrite (IH (String.length r')) by (simpl; lia); reflexivity.
  - rewrite lower_cons_single.
    + rewrite lower_ascii_idem.
      rewrite (IH (String.length (String d r'))) by (simpl; lia); reflexivity.
    + rewrite lower_ascii_not195.
      destruct ((nat_of_ascii c =? 195)%nat) eqn:Ec; [right|left; reflexivity].
      destruct (lower_head d r') as [t ->].
      rewrite latin1_upper_lower_ascii; simpl in E; exact E.
Qed.

(** The filter the constructor stores, once construction has succeeded. *)
Lemma construct_filter_ok (toLower : string -> string) (nm : string) (options : jsval)
  (reg : Collection.registry) (c : Collection.t) (reg' : Collection.registry) (f : jsval) :
  Collection.construct_with toLower nm options reg = (Ok c, reg') ->
  lookup "filter" (enum_props options) = Some f ->
  Filter.normalize_filter toLower f = Ok (Collection.opt_get "filter" (Collection.options c)).
Proof.
  unfold Collection.construct_with; intros Hok Hf.
  destruct (isEmpty _); [discriminate|].
  unfold Collection.opt_get in *; rewrite lookup_extend, Hf in Hok.
  destruct (Filter.normalize_filter toLower f) as [g|e]; [|discriminate].
  injection Hok as <- _; simpl; rewrite lookup_set_all_same; reflexivity.
Qed.

Section FilterClaims.

Import Obs.

(** The string function of [String.prototype.toLowerCase]. *)
Variable toLower : string -> string.

(** Lowering a lowered string changes nothing. *)
Hypothesis toLower_idem : forall s, toLower (toLower s) = toLower s.

(** C7 (as the code behaves), for the normalisation of lines 73-105 and
    any function [toLower] of [toLowerCase]: a falsy filter [f] is kept as
    is; a truthy [f] that is not an object makes it throw a TypeError; an
    object [f] makes it throw exactly when [allow.extensions] or
    [deny.extensions] (when [allow], [deny] are plain objects) is an array
    holding a non-string, and then only a TypeError. Otherwise the
    normalised filter has: [allow] and [deny] plain objects; [maxSize] the
    supplied value if it is a number other than [0] and [NaN], [null]
    otherwise; [extensions] and [contentTypes] the supplied arrays
    ([extensions] lowered with [toLower]) or [[]]; every other property of
    the filter and of [allow]/[deny] kept. *)
Theorem filter_normalisation_lenient (f : jsval) :
  (truthy f = false -> Filter.normalize_filter toLower f = Ok f)
  /\ (truthy f = true -> is_object f = false ->
      Filter.normalize_filter toLower f = Throw TypeError)
  /\ (is_object f = true ->
      (forall e, Filter.normalize_filter toLower f = Throw e -> e = TypeError)
      /\ (Filter.normalize_filter toLower f = Throw TypeError
          <-> ~ (strings_only f "allow" /\ strings_only f "deny"))
      /\ (strings_only f "allow" -> strings_only f "deny" ->
          exists g, Filter.normalize_filter toLower f = Ok g
          /\ is_object g = true
          /\ gp g "maxSize" = maxSize_after f
          /\ (forall k, k <> "allow" -> k <> "deny" -> k <> "maxSize" -> gp g k = gp f k)
          /\ normalised_sub toLower f g "allow" /\ normalised_sub toLower f g "deny")).
Proof.
  split; [|split].
  - intros T; unfold Filter.normalize_filter; rewrite T; reflexivity.
  - intros T Ho; exact (normalize_filter_primitive toLower f Ho T).
  - intros Ho; destruct (normalize_filter_object toLower f Ho) as [Hsucc Hex].
    split; [|split].
    + intros e E; exact (only_TypeError_normalize_filter toLower f e E).
    + split.
      * intros E [Sa Sd]; destruct (Hex Sa Sd) as [g Eg]; congruence.
      * intros Hn; destruct (Filter.normalize_filter toLower f) as [g|e] eqn:E.
        -- exfalso; apply Hn.
           destruct (Hsucc g eq_refl) as [_ [_ [_ [Sa [Sd _]]]]]; split; assumption.
        -- rewrite (only_TypeError_normalize_filter toLower f e E); reflexivity.
    + intros Sa Sd; destruct (Hex Sa Sd) as [g Eg]; exists g; split; [exact Eg|].
      destruct (Hsucc g Eg) as [Og [Mg [Kg [_ [_ [Na Nd]]]]]].
      exact (conj Og (conj Mg (conj Kg (conj Na Nd)))).
Qed.

(** C8: for a [toLower] that is idempotent, two option objects that agree
    on every option but [filter], whose filters differ only in the letter
    case of strings in [allow.extensions] and [deny.extensions] (equal once
    lowered with [toLower]), construct the same way: the same exception, or
    collections with the same options. After a successful construction with
    an object filter, [allow.extensions] and [deny.extensions] are arrays of
    lowercase strings, element by element the supplied strings lowered
    (same length, same order). *)
Theorem extensions_case_insensitive (nm : string) (o1 o2 : jsval)
  (reg : Collection.registry) (f1 f2 : jsval)
  (Hrest : forall k, k <> "filter" -> lookup k (enum_props o1) = lookup k (enum_props o2))
  (Hf1 : lookup "filter" (enum_props o1) = Some f1)
  (Hf2 : lookup "filter" (enum_props o2) = Some f2)
  (Hci : ci_filter toLower f1 f2) :
  res_rel (fun c1 c2 => forall k, Collection.opt_get k (Collection.options c1)
                                  = Collection.opt_get k (Collection.options c2))
    (fst (Collection.construct_with toLower nm o1 reg))
    (fst (Collection.construct_with toLower nm o2 reg))
  /\ (forall c reg', Collection.construct_with toLower nm o1 reg = (Ok c, reg') ->
      truthy f1 = true ->
      forall k, k = "allow" \/ k = "deny" ->
      exists es ps,
        gp (gp (Collection.opt_get "filter" (Collection.options c)) k) "extensions" = JArr es ps
        /\ Forall (is_lower_str toLower) es
        /\ (forall es0 ps0, gp (sub0 f1 k) "extensions" = JArr es0 ps0 ->
            es = map (lowerv toLower) es0 /\ ps = ps0)).
Proof.
  split.
  - unfold Collection.construct_with, Collection.opt_get.
    rewrite !lookup_extend, Hf1, Hf2, (Hrest "stores") by discriminate.
    rewrite (normalize_filter_ci toLower f1 f2 Hci).
    destruct (isEmpty _); [reflexivity|].
    destruct (Filter.normalize_filter toLower f2) as [g|e]; simpl; [|reflexivity].
    intros k; destruct (String.eqb k "filter") eqn:E.
    + apply String.eqb_eq in E; subst k; rewrite !lookup_set_all_same; reflexivity.
    + apply String.eqb_neq in E; rewrite !lookup_set_all_other by exact E.
      rewrite !lookup_extend, (Hrest k E); reflexivity.
  - intros c reg' Hok Ht k Hk.
    pose proof (construct_filter_ok toLower nm o1 reg c reg' f1 Hok Hf1) as Eg.
    set (g := Collection.opt_get "filter" (Collection.options c)) in *.
    destruct (is_object f1) eqn:Ho.
    2: { rewrite (normalize_filter_primitive toLower f1 Ho Ht) in Eg; discriminate Eg. }
    destruct (proj1 (normalize_filter_object toLower f1 Ho) g Eg)
      as [_ [_ [_ [Sa [Sd [[_ [Xa _]] [_ [Xd _]]]]]]]].
    assert (X : gp (gp g k) "extensions" = exts_after toLower f1 k /\ strings_only f1 k)
      by (destruct Hk as [-> | ->]; split; assumption).
    destruct X as [X S]; rewrite X; unfold exts_after.
    destruct (gp (sub0 f1 k) "extensions") as [| | | | |es0 ps0|] eqn:Ee;
      try (exists [], []; split; [reflexivity|split; [constructor|discriminate]]).
    exists (map (lowerv toLower) es0), ps0; split; [reflexivity|split].
    + specialize (S es0 ps0 Ee); clear -S toLower_idem.
      induction S as [|v es0 [s ->] _ IH]; simpl; constructor; [|exact IH].
      exists (toLower s); split; [reflexivity|apply toLower_idem].
    + intros es1 ps1 H; injection H as <- <-; split; reflexivity.
Qed.

End FilterClaims.

Lemma filter_normalisation_lenient_witness :
  exists g,
    Filter.normalize_filter lower
      (JObj [("allow", JObj [("extensions", JArr [JStr "JPÉG"] [])]); ("maxSize", JNum 0)])
    = Ok g
    /\ gp (gp g "allow") "extensions" = JArr [JStr "jpég"] []
    /\ gp g "maxSize" = JNull.
Proof.
  destruct (proj2 (proj2 (filter_normalisation_lenient lower
      (JObj [("allow", JObj [("extensions", JArr [JStr "JPÉG"] [])]); ("maxSize", JNum 0)])))
      eq_refl) as [_ [_ Hok]].
  destruct Hok as [g [E [_ [M [_ [[_ [X _]] _]]]]]].
  - intros es ps H; vm_compute in H; injection H as <- <-.
    constructor; [exists "JPÉG"; reflexivity|constructor].
  - intros es ps H; vm_compute in H; discriminate H.
  - exists g; split; [exact E|split].
    + rewrite X; vm_compute; reflexivity.
    + rewrite M; vm_compute; reflexivity.
Defined.

(** C7, where the code departs from the claim: the filter
    [{allow: {extensions: [5]}}] makes the normalisation, and with it the
    construction, throw (line 88 calls [toLowerCase] on a number); so does
    the filter [true] (line 75 writes nothing on a primitive, line 83 then
    reads [undefined.extensions]); the numbers [0] and [NaN] given as
    [maxSize] are not kept but replaced by [null] (line 80). *)
Lemma filter_shape_counterexample :
  Filter.normalize_filter lower
    (JObj [("allow", JObj [("extensions", JArr [JNum 5] [])])]) = Throw TypeError
  /\ Filter.normalize_filter lower (JBool true) = Throw TypeError
  /\ fst (Collection.construct "images"
            (JObj [("stores", JArr [JObj [("name", JStr "s3")]] []);
                   ("filter", JBool true)]) [])
     = Throw TypeError
  /\ (exists g, Filter.normalize_filter lower (JObj [("maxSize", JNum 0)]) = Ok g
                /\ gp g "maxSize" = JNull)
  /\ (exists g, Filter.normalize_filter lower (JObj [("maxSize", JNum NaN)]) = Ok g
                /\ gp g "maxSize" = JNull).
Proof.
  split; [vm_compute; reflexivity|].
  split; [vm_compute; reflexivity|].
  split; [vm_compute; reflexivity|].
  split; eexists; split; (reflexivity || (vm_compute; reflexivity)).
Qed.

Lemma extensions_case_insensitive_witness :
  exists c1 c2 r1 r2,
    Collection.construct "images"
      (JObj [("stores", JArr [JObj [("name", JStr "s3")]] []);
             ("filter", JObj [("allow", JObj [("extensions", JArr [JStr "JPÉG"] [])])])]) []
    = (Ok c1, r1)
    /\ Collection.construct "images"
         (JObj [("stores", JArr [JObj [("name", JStr "s3")]] []);
                ("filter", JObj [("allow", JObj [("extensions", JArr [JStr "jpég"] [])])])]) []
       = (Ok c2, r2)
    /\ Collection.opt_get "filter" (Collection.options c1)
       = Collection.opt_get "filter" (Collection.options c2).
Proof.
  destruct (extensions_case_insensitive lower lower_idem "images"
      (JObj [("stores", JArr [JObj [("name", JStr "s3")]] []);
             ("filter", JObj [("allow", JObj [("extensions", JArr [JStr "JPÉG"] [])])])])
      (JObj [("stores", JArr [JObj [("name", JStr "s3")]] []);
             ("filter", JObj [("allow", JObj [("extensions", JArr [JStr "jpég"] [])])])]) []
      (JObj [("allow", JObj [("extensions", JArr [JStr "JPÉG"] [])])])
      (JObj [("allow", JObj [("extensions", JArr [JStr "jpég"] [])])]))
    as [H1 _].
  - intros k Hk; cbn [enum_props dedup existsb].
    change ((String.eqb "filter" "stores") || false) with false; cbn [lookup].
    destruct (String.eqb "stores" k); [reflexivity|].
    destruct (String.eqb "filter" k) eqn:E; [apply String.eqb_eq in E; congruence|reflexivity].
  - reflexivity.
  - reflexivity.
  - constructor; [|constructor]; split; [reflexivity|].
    constructor; [|constructor]; split; [reflexivity|].
    split; [|reflexivity]; constructor; [|constructor].
    right; exists "JPÉG", "jpég"; split; [reflexivity|split; reflexivity].
  - do 4 eexists; split; [reflexivity|split; [reflexivity|]].
    exact (H1 "filter").
Defined.

(* ========================================================================= *)
(** * Further properties of the constructor and the sync callbacks *)

(* ------------------------------------------------------------------------- *)
(** ** Normalising twice *)

Section Idempotence.

Import Obs.

(** The string function of [String.prototype.toLowerCase]. *)
Variable toLower : string -> string.

(** Lowering a lowered string changes nothing. *)
Hypothesis toLower_idem : forall s, toLower (toLower s) = toLower s.

Lemma uniform_set_all_same (k : string) (x : jsval) (ps : list (string * jsval)) :
  uniform k x (set_all k x ps).
Proof.
  unfold uniform, set_all; destruct (existsb _ ps) eqn:Ex.
  - apply Forall_forall; intros p Hp; apply in_map_iff in Hp.
    destruct Hp as [q [<- _]]; destruct (String.eqb (fst q) k) eqn:E; simpl; [reflexivity|].
    intros Hq; rewrite Hq, String.eqb_refl in E; discriminate.
  - apply Forall_app; split.
    + apply Forall_forall; intros [k' v] Hin; simpl; intros Hk; subst k'.
      assert (existsb (fun p => String.eqb (fst p) k) ps = true)
        by (apply existsb_exists; exists (k, v); rewrite String.eqb_refl; auto).
      congruence.
    + constructor; [reflexivity|constructor].
Qed.

Lemma uniform_set_all_other (k k' : string) (x y : jsval) (ps : list (string * jsval)) :
  k' <> k -> uniform k' y ps -> uniform k' y (set_all k x ps).
Proof.
  intros Hne Hu; unfold uniform, set_all in *; destruct (existsb _ ps).
  - apply Forall_forall; intros p Hp; apply in_map_iff in Hp.
    destruct Hp as [q [<- Hq]]; destruct (String.eqb (fst q) k) eqn:E; simpl.
    + apply String.eqb_eq in E; intros H'; congruence.
    + rewrite Forall_forall in Hu; apply Hu; exact Hq.
  - apply Forall_app; split; [exact Hu|].
    constructor; [simpl; intros H'; congruence|constructor].
Qed.

Lemma lookup_some_existsb (k : string) (x : jsval) (ps : list (string * jsval)) :
  lookup k ps = Some x -> existsb (fun p => String.eqb (fst p) k) ps = true.
Proof.
  induction ps as [|[k1 v1] ps IH]; simpl; [discriminate|].
  destruct (String.eqb k1 k); [reflexivity|exact IH].
Qed.

Lemma set_all_uniform_id (k : string) (x : jsval) (ps : list (string * jsval)) :
  lookup k ps = Some x -> uniform k x ps -> set_all k x ps = ps.
Proof.
  intros Hl Hu; unfold set_all; rewrite (lookup_some_existsb k x ps Hl).
  rewrite <- (map_id ps) at 2; apply map_ext_in.
  intros [k1 v1] Hin; simpl; destruct (String.eqb k1 k) eqn:E; [|reflexivity].
  apply String.eqb_eq in E; unfold uniform in Hu; rewrite Forall_forall in Hu.
  pose proof (Hu (k1, v1) Hin E) as Hv; simpl in Hv; rewrite Hv; reflexivity.
Qed.

Lemma holds_gp (v : jsval) (k : string) (x : jsval) : holds v k x -> gp v k = x.
Proof. intros [Ho [Hl _]]; destruct v; try discriminate; unfold gp; simpl in *; rewrite Hl; reflexivity. Qed.

Lemma holds_getp (v : jsval) (k : string) (x : jsval) : holds v k x -> getp v k = Ok x.
Proof.
  intros H; rewrite getp_obj by (destruct H; assumption); rewrite (holds_gp v k x H); reflexivity.
Qed.

Lemma holds_setp_id (v : jsval) (k : string) (x : jsval) : holds v k x -> setp v k x = Ok v.
Proof.
  intros [Ho [Hl Hu]]; destruct v; try discriminate; simpl in *;
    rewrite (set_all_uniform_id k x _ Hl Hu); reflexivity.
Qed.

Lemma setp_holds (v v' : jsval) (k : string) (x : jsval) :
  is_object v = true -> setp v k x = Ok v' ->
  holds v' k x /\ (forall k' y, k' <> k -> holds v k' y -> holds v' k' y).
Proof.
  intros Ho E; destruct v; try discriminate; simpl in E; injection E as <-; unfold holds; simpl;
    (split; [split; [reflexivity|split; [apply lookup_set_all_same|apply uniform_set_all_same]]|]);
    intros k' y Hne [_ [Hl Hu]]; simpl in *;
    (split; [reflexivity|split; [rewrite lookup_set_all_other by exact Hne; exact Hl|]]);
    apply uniform_set_all_other; assumption.
Qed.

Lemma holds_object (v : jsval) (k : string) (x : jsval) : holds v k x -> is_object v = true.
Proof. intros [H _]; exact H. Qed.

Lemma lower_strs (es : list jsval) : Forall is_str es -> Forall (is_lower_str toLower) (map (lowerv toLower) es).
Proof.
  induction 1 as [|v es [s ->] _ IH]; simpl; constructor; [|exact IH].
  exists (toLower s); split; [reflexivity|apply toLower_idem].
Qed.

Lemma set_sub_holds (v v' : jsval) (k s : string) (x : jsval) :
  is_object v = true -> match_Object (gp v k) = true -> Filter.set_sub v k s x = Ok v' ->
  holds v' k (gp v' k) /\ match_Object (gp v' k) = true /\ holds (gp v' k) s x
  /\ (forall s' y, s' <> s -> holds (gp v k) s' y -> holds (gp v' k) s' y)
  /\ (forall k' y, k' <> k -> holds v k' y -> holds v' k' y).
Proof.
  intros Ho Hp E; unfold Filter.set_sub in E.
  rewrite (getp_obj v k Ho), bind_Ok in E.
  destruct (setp_obj (gp v k) s x (plain_is_object _ Hp)) as [o' [Eo [Oo [Po _]]]].
  rewrite Eo, bind_Ok in E.
  destruct (setp_holds v v' k o' Ho E) as [Hk Hother].
  rewrite (holds_gp v' k o' Hk).
  destruct (setp_holds (gp v k) o' s x (plain_is_object _ Hp) Eo) as [Hs Hsother].
  refine (conj Hk (conj _ (conj Hs (conj Hsother Hother)))); congruence.
Qed.

(** Lines 83-90 ([k = "allow"]) and 94-101 ([k = "deny"]) write
    [filter[k].extensions] everywhere it is bound, with lowercase strings. *)
Lemma norm_extensions_holds (v v' : jsval) (k : string) :
  is_object v = true -> match_Object (gp v k) = true ->
  Filter.norm_extensions toLower k v = Ok v' ->
  holds v' k (gp v' k) /\ match_Object (gp v' k) = true
  /\ (exists es ps, holds (gp v' k) "extensions" (JArr es ps) /\ Forall (is_lower_str toLower) es)
  /\ (forall s' y, s' <> "extensions" -> holds (gp v k) s' y -> holds (gp v' k) s' y)
  /\ (forall k' y, k' <> k -> holds v k' y -> holds v' k' y).
Proof.
  intros Hv Hk E; unfold Filter.norm_extensions in E.
  rewrite (getp_obj v k Hv), bind_Ok in E.
  rewrite (getp_obj (gp v k) "extensions" (plain_is_object _ Hk)), bind_Ok in E.
  rewrite cond_arr in E.
  destruct (isArray (gp (gp v k) "extensions")) eqn:Ea; simpl in E.
  - destruct (gp (gp v k) "extensions") as [| | | | |es ps|ps] eqn:Ee;
      simpl in Ea; try discriminate; simpl in E.
    destruct (mapM (toLowerCase toLower) es) as [es'|e] eqn:Em; simpl in E; [|discriminate].
    destruct (mapM_lower_ok toLower _ _ Em) as [Hs ->].
    destruct (set_sub_holds v v' k "extensions" _ Hv Hk E) as [H1 [H2 [H3 [H4 H5]]]].
    refine (conj H1 (conj H2 (conj _ (conj H4 H5)))).
    exists (map (lowerv toLower) es), ps; split; [exact H3|apply lower_strs; exact Hs].
  - destruct (set_sub_holds v v' k "extensions" _ Hv Hk E) as [H1 [H2 [H3 [H4 H5]]]].
    refine (conj H1 (conj H2 (conj _ (conj H4 H5)))).
    exists [], []; split; [exact H3|constructor].
Qed.

(** Lines 91-93 ([k = "allow"]) and 102-104 ([k = "deny"]). *)
Lemma norm_contentTypes_holds (v v' o : jsval) (k : string) :
  holds v k o -> match_Object o = true ->
  Filter.norm_contentTypes k v = Ok v' ->
  holds v' k (gp v' k) /\ match_Object (gp v' k) = true
  /\ isArray (gp (gp v' k) "contentTypes") = true
  /\ (forall s' y, s' <> "contentTypes" -> holds o s' y -> holds (gp v' k) s' y)
  /\ (forall k' y, k' <> k -> holds v k' y -> holds v' k' y).
Proof.
  intros Hh Ho E; pose proof (holds_object _ _ _ Hh) as Hv.
  pose proof (holds_gp _ _ _ Hh) as Hg.
  unfold Filter.norm_contentTypes in E.
  rewrite (holds_getp v k o Hh), bind_Ok in E.
  rewrite (getp_obj o "contentTypes" (plain_is_object _ Ho)), bind_Ok, cond_arr in E.
  destruct (isArray (gp o "contentTypes")) eqn:Ea; simpl in E.
  - injection E as <-; rewrite Hg.
    refine (conj Hh (conj Ho (conj Ea (conj _ _)))); auto.
  - rewrite <- Hg in Ho.
    destruct (set_sub_holds v v' k "contentTypes" _ Hv Ho E) as [H1 [H2 [H3 [H4 H5]]]].
    rewrite Hg in H4.
    refine (conj H1 (conj H2 (conj _ (conj H4 H5)))).
    rewrite (holds_gp _ _ _ H3); reflexivity.
Qed.

(** Lines 80-82 leave [maxSize] a non-zero number or, in every binding,
    [null]. *)
Lemma step_maxSize_holds (v v' : jsval) :
  is_object v = true ->
  (if negb (truthy (gp v "maxSize")) || negb (is_number (gp v "maxSize"))
   then setp v "maxSize" JNull else Ok v) = Ok v' ->
  ((truthy (gp v' "maxSize") && is_number (gp v' "maxSize")) = true
   \/ holds v' "maxSize" JNull)
  /\ (forall k' y, k' <> "maxSize" -> holds v k' y -> holds v' k' y).
Proof.
  intros Hv E.
  destruct (truthy (gp v "maxSize")) eqn:T, (is_number (gp v "maxSize")) eqn:N; simpl in E;
    try (injection E as <-; split; [left; rewrite T, N; reflexivity|auto]);
    (destruct (setp_holds v v' "maxSize" JNull Hv E) as [H1 H2]; split; [right; exact H1|exact H2]).
Qed.

(** Lines 73-105 leave an object filter in normal form. *)
Lemma normalize_filter_normal (f g : jsval) :
  is_object f = true -> Filter.normalize_filter toLower f = Ok g -> (normal_filter toLower) g.
Proof.
  intros Hobj H; unfold Filter.normalize_filter in H.
  rewrite (object_truthy f Hobj) in H; change (negb true) with false in H; cbv beta iota in H.
  rewrite (getp_obj f "allow" Hobj), bind_Ok in H.
  destruct (step_plain f "allow" Hobj) as [f1 [E1 [O1 [A1 B1]]]]; rewrite E1, bind_Ok in H.
  rewrite (getp_obj f1 "deny" O1), bind_Ok in H.
  destruct (step_plain f1 "deny" O1) as [f2 [E2 [O2 [A2 B2]]]]; rewrite E2, bind_Ok in H.
  rewrite (getp_obj f2 "maxSize" O2), bind_Ok in H.
  destruct (step_maxSize f2 O2) as [f3 [E3 [O3 [_ B3]]]].
  destruct (step_maxSize_holds f2 f3 O2 E3) as [M3 _].
  rewrite E3, bind_Ok in H.
  assert (P3 : match_Object (gp f3 "allow") = true).
  { rewrite B3, B2 by discriminate; rewrite A1; apply sub0_plain. }
  destruct (Filter.norm_extensions toLower "allow" f3) as [f4|e] eqn:E4; [|discriminate].
  rewrite bind_Ok in H.
  destruct (proj1 (step_extensions toLower f3 "allow" O3 P3) f4 E4) as [O4 [P4 [K4 _]]].
  destruct (norm_extensions_holds f3 f4 "allow" O3 P3 E4) as [Ha4 [Pa4 [Xa4 [_ Ka4]]]].
  destruct (step_contentTypes f4 "allow" O4 P4) as [f5 [E5 [O5 [P5 [K5 _]]]]].
  destruct (norm_contentTypes_holds f4 f5 _ "allow" Ha4 Pa4 E5) as [Ha5 [Pa5 [Ca5 [Sa5 Ka5]]]].
  rewrite E5, bind_Ok in H.
  assert (P5d : match_Object (gp f5 "deny") = true).
  { rewrite K5, K4, B3 by discriminate; rewrite A2; apply sub0_plain. }
  destruct (Filter.norm_extensions toLower "deny" f5) as [f6|e] eqn:E6; [|discriminate].
  rewrite bind_Ok in H.
  destruct (proj1 (step_extensions toLower f5 "deny" O5 P5d) f6 E6) as [O6 [P6 [K6 _]]].
  destruct (norm_extensions_holds f5 f6 "deny" O5 P5d E6) as [Hd6 [Pd6 [Xd6 [_ Kd6]]]].
  destruct (step_contentTypes f6 "deny" O6 P6) as [f7 [E7 [O7 [P7 [K7 _]]]]].
  rewrite E7 in H; injection H as <-.
  destruct (norm_contentTypes_holds f6 f7 _ "deny" Hd6 Pd6 E7) as [Hd7 [Pd7 [Cd7 [Sd7 Kd7]]]].
  assert (Hne1 : "maxSize" <> "allow") by discriminate.
  assert (Hne2 : "maxSize" <> "deny") by discriminate.
  assert (Hne3 : "allow" <> "deny") by discriminate.
  assert (Hne4 : "extensions" <> "contentTypes") by discriminate.
  refine (conj O7 (conj _ (conj _ _))).
  - destruct M3 as [M3|M3].
    + left; rewrite K7, K6, K5, K4 by discriminate; exact M3.
    + right; apply Kd7, Kd6, Ka5, Ka4; assumption.
  - exists (gp f5 "allow"); refine (conj _ (conj Pa5 (conj _ Ca5))).
    + apply Kd7, Kd6; assumption.
    + destruct Xa4 as [es [ps [Xh Xl]]]; exists es, ps; split; [|exact Xl].
      apply Sa5; assumption.
  - exists (gp f7 "deny"); refine (conj Hd7 (conj Pd7 (conj _ Cd7))).
    destruct Xd6 as [es [ps [Xh Xl]]]; exists es, ps; split; [|exact Xl].
    apply Sd7; assumption.
Qed.

Lemma mapM_lower_fixed (es : list jsval) :
  Forall (is_lower_str toLower) es -> mapM (toLowerCase toLower) es = Ok es.
Proof.
  induction 1 as [|v es [s [-> Hs]] _ IH]; simpl; [reflexivity|].
  rewrite Hs, IH; reflexivity.
Qed.

Lemma norm_extensions_fixed (g : jsval) (k : string) :
  (sub_normal toLower) g k -> Filter.norm_extensions toLower k g = Ok g.
Proof.
  intros [o [Hg [Po [[es [ps [He Hl]]] _]]]]; unfold Filter.norm_extensions.
  rewrite (holds_getp g k o Hg), bind_Ok, (holds_getp o _ _ He), bind_Ok; simpl.
  rewrite (mapM_lower_fixed es Hl); simpl.
  unfold Filter.set_sub.
  rewrite (holds_getp g k o Hg), bind_Ok, (holds_setp_id o _ _ He), bind_Ok.
  exact (holds_setp_id g k o Hg).
Qed.

Lemma norm_contentTypes_fixed (g : jsval) (k : string) :
  (sub_normal toLower) g k -> Filter.norm_contentTypes k g = Ok g.
Proof.
  intros [o [Hg [Po [_ Ca]]]]; unfold Filter.norm_contentTypes.
  rewrite (holds_getp g k o Hg), bind_Ok, (getp_obj o _ (plain_is_object _ Po)), bind_Ok.
  rewrite cond_arr, Ca; reflexivity.
Qed.

Lemma sub_normal_plain (g : jsval) (k : string) :
  (sub_normal toLower) g k -> getp g k = Ok (gp g k)
  /\ (negb (truthy (gp g k)) || negb (match_Object (gp g k))) = false.
Proof.
  intros [o [Hg [Po _]]]; rewrite (holds_getp g k o Hg), (holds_gp g k o Hg).
  rewrite (plain_truthy o Po), Po; split; reflexivity.
Qed.

(** A filter in normal form goes through lines 73-105 unchanged. *)
Lemma normalize_filter_fixed (g : jsval) :
  (normal_filter toLower) g -> Filter.normalize_filter toLower g = Ok g.
Proof.
  intros [Og [Mg [Na Nd]]]; unfold Filter.normalize_filter.
  rewrite (object_truthy g Og); change (negb true) with false; cbv beta iota.
  destruct (sub_normal_plain g "allow" Na) as [Ga Ca]; rewrite Ga, bind_Ok, Ca, bind_Ok.
  destruct (sub_normal_plain g "deny" Nd) as [Gd Cd]; rewrite Gd, bind_Ok, Cd, bind_Ok.
  rewrite (getp_obj g "maxSize" Og), bind_Ok.
  assert (Hm : (if negb (truthy (gp g "maxSize")) || negb (is_number (gp g "maxSize"))
                then setp g "maxSize" JNull else Ok g) = Ok g).
  { destruct Mg as [Mg|Mg].
    - apply andb_true_iff in Mg; destruct Mg as [-> ->]; reflexivity.
    - rewrite (holds_gp _ _ _ Mg); exact (holds_setp_id _ _ _ Mg). }
  rewrite Hm, bind_Ok.
  rewrite (norm_extensions_fixed g "allow" Na), bind_Ok.
  rewrite (norm_contentTypes_fixed g "allow" Na), bind_Ok.
  rewrite (norm_extensions_fixed g "deny" Nd), bind_Ok.
  exact (norm_contentTypes_fixed g "deny" Nd).
Qed.

(** X1: for a [toLower] that is idempotent, normalising is idempotent. A
    filter that lines 73-105 accepted, run through lines 73-105 again (as
    happens when the same options object, whose [filter] was normalised in
    place, is passed to a second constructor), is left exactly as it is. *)
Theorem normalize_filter_idempotent (f g : jsval) (H : Filter.normalize_filter toLower f = Ok g) :
  Filter.normalize_filter toLower g = Ok g.
Proof.
  destruct (truthy f) eqn:T.
  - destruct (is_object f) eqn:Ho.
    + exact (normalize_filter_fixed g (normalize_filter_normal f g Ho H)).
    + rewrite (normalize_filter_primitive toLower f Ho T) in H; discriminate H.
  - unfold Filter.normalize_filter in H; rewrite T in H; injection H as <-.
    unfold Filter.normalize_filter; rewrite T; reflexivity.
Qed.

End Idempotence.

Lemma normalize_filter_idempotent_witness :
  let f := JObj [("allow", JArr [] []);
                 ("deny", JObj [("extensions", JArr [JStr "EXE"; JStr "BÄT"] [])]);
                 ("maxSize", JNum NaN); ("note", JStr "kept")] in
  exists g, Filter.normalize_filter lower f = Ok g
    /\ gp (gp g "deny") "extensions" = JArr [JStr "exe"; JStr "bät"] []
    /\ Filter.normalize_filter lower g = Ok g.
Proof.
  intros f; eexists; split; [vm_compute; reflexivity|split; [vm_compute; reflexivity|]].
  apply (normalize_filter_idempotent lower lower_idem f); vm_compute; reflexivity.
Defined.

(* ------------------------------------------------------------------------- *)
(** ** Construction: registry, exceptions, options *)

Section ConstructProps.

Import Obs.

(** The filter a successful construction stores is the option's filter
    (or the default [null]) after lines 73-105. *)
Lemma construct_filter_value (toLower : string -> string) (nm : string) (options : jsval)
  (reg : Collection.registry) (c : Collection.t) (reg' : Collection.registry) :
  Collection.construct_with toLower nm options reg = (Ok c, reg') ->
  Filter.normalize_filter toLower (match lookup "filter" (enum_props options) with
                           | Some v => v | None => JNull end)
  = Ok (Collection.opt_get "filter" (Collection.options c)).
Proof.
  unfold Collection.construct_with; intros Hok.
  destruct (isEmpty _); [discriminate|].
  unfold Collection.opt_get in *; rewrite lookup_extend in Hok.
  assert (Hd : match match lookup "filter" (enum_props options) with
                     | Some v => Some v
                     | None => lookup "filter" Collection.default_options
                     end with Some v => v | None => JUndef end
               = match lookup "filter" (enum_props options) with
                 | Some v => v | None => JNull end)
    by (destruct (lookup "filter" (enum_props options)); reflexivity).
  rewrite Hd in Hok.
  destruct (Filter.normalize_filter _ _) as [g|e]; [|discriminate].
  injection Hok as <- _; simpl; rewrite lookup_set_all_same; reflexivity.
Qed.

Lemma isEmpty_cases (v : jsval) :
  isEmpty v = true <->
  (v = JUndef \/ v = JNull \/ (exists b, v = JBool b) \/ (exists n, v = JNum n)
   \/ v = JStr "" \/ (exists ps, v = JArr [] ps) \/ v = JObj []).
Proof.
  split.
  - destruct v as [| |b|n|s|es ps|ps]; simpl; intros E.
    + left; reflexivity.
    + right; left; reflexivity.
    + right; right; left; exists b; reflexivity.
    + right; right; right; left; exists n; reflexivity.
    + apply String.eqb_eq in E; subst s; do 4 right; left; reflexivity.
    + destruct es; [|discriminate]; do 5 right; left; exists ps; reflexivity.
    + destruct ps; [|discriminate]; do 6 right; reflexivity.
  - intros [-> | [-> | [[b ->] | [[n ->] | [-> | [[ps ->] | ->]]]]]]; reflexivity.
Qed.

(** X3: after a successful construction every option other than [filter]
    is the supplied value when the options object has that key, and the
    default (lines 20-24) otherwise. *)
Theorem construct_options_kept (nm : string) (options : jsval) (reg : Collection.registry)
  (c : Collection.t) (reg' : Collection.registry)
  (H : Collection.construct nm options reg = (Ok c, reg'))
  (k : string) (Hk : k <> "filter") :
  Collection.opt_get k (Collection.options c)
  = match lookup k (enum_props options) with
    | Some v => v
    | None => Collection.opt_get k Collection.default_options
    end.
Proof.
  unfold Collection.construct, Collection.construct_with in H.
  destruct (isEmpty _); [discriminate|].
  destruct (Filter.normalize_filter _ _) as [g|e]; [|discriminate].
  injection H as <- _; unfold Collection.opt_get; simpl.
  rewrite lookup_set_all_other by exact Hk; rewrite lookup_extend.
  destruct (lookup k (enum_props options)); reflexivity.
Qed.

Lemma construct_options_kept_witness :
  exists c reg',
    Collection.construct "images"
      (JObj [("stores", JArr [JObj [("name", JStr "s3")]] []);
             ("defaultStoreName", JStr "s3")]) [] = (Ok c, reg')
    /\ Collection.opt_get "defaultStoreName" (Collection.options c) = JStr "s3".
Proof.
  eexists _, _; split; [reflexivity|].
  apply (construct_options_kept "images"
           (JObj [("stores", JArr [JObj [("name", JStr "s3")]] []);
                  ("defaultStoreName", JStr "s3")]) [] _ _ eq_refl "defaultStoreName").
  discriminate.
Defined.

(** X4: the stores check of lines 37-39 on any value of the [stores] option:
    construction throws the stores error exactly when [stores] is
    [undefined], [null], a boolean, a number, the empty string, an empty
    array or an object without properties; a non-empty string or an object
    with a property passes it, as a non-empty array does. *)
Theorem construct_stores_check (nm : string) (options : jsval) (reg : Collection.registry)
  (v : jsval) (Hv : lookup "stores" (enum_props options) = Some v) :
  fst (Collection.construct nm options reg) = Throw Collection.ConfigurationError
  <-> (v = JUndef \/ v = JNull \/ (exists b, v = JBool b) \/ (exists n, v = JNum n)
       \/ v = JStr "" \/ (exists ps, v = JArr [] ps) \/ v = JObj []).
Proof.
  rewrite <- isEmpty_cases.
  unfold Collection.construct, Collection.construct_with, Collection.opt_get.
  rewrite lookup_extend, Hv.
  destruct (isEmpty v) eqn:E; simpl; [split; reflexivity|].
  split; [|discriminate].
  destruct (Filter.normalize_filter _ _) as [g|e] eqn:N; simpl; [discriminate|].
  intros Heq; injection Heq as ->.
  specialize (only_TypeError_normalize_filter _ _ _ N); discriminate.
Qed.

Lemma construct_stores_check_witness :
  fst (Collection.construct "images" (JObj [("stores", JObj [("name", JStr "s3")])]) [])
    <> Throw Collection.ConfigurationError
  /\ fst (Collection.construct "images" (JObj [("stores", JNum 3)]) [])
     = Throw Collection.ConfigurationError.
Proof.
  split.
  - intros H.
    apply (construct_stores_check "images" (JObj [("stores", JObj [("name", JStr "s3")])]) []
             (JObj [("name", JStr "s3")]) eq_refl) in H.
    destruct H as [H|[H|[[b H]|[[n H]|[H|[[ps H]|H]]]]]]; discriminate H.
  - apply (construct_stores_check "images" (JObj [("stores", JNum 3)]) [] (JNum 3) eq_refl).
    right; right; right; left; exists 3%Z; reflexivity.
Defined.

(** X6: a collection constructed without a filter (no [filter] option, or
    a falsy one) has deny rules that never deny: every file passes
    [fileIsAllowed]. *)
Theorem construct_no_filter_allows_all (nm : string) (options : jsval) (reg : Collection.registry)
  (c : Collection.t) (reg' : Collection.registry)
  (H : Collection.construct nm options reg = (Ok c, reg'))
  (Hf : lookup "filter" (enum_props options) = None
        \/ exists f, lookup "filter" (enum_props options) = Some f /\ truthy f = false)
  (d : Doc.t) :
  Admission.fileIsAllowed c d = true.
Proof.
  pose proof (construct_filter_value lower nm options reg c reg' H) as E.
  assert (Hg : truthy (Collection.opt_get "filter" (Collection.options c)) = false).
  { destruct Hf as [Hf|[f [Hf Ht]]]; rewrite Hf in E.
    - injection E as <-; reflexivity.
    - unfold Filter.normalize_filter in E; rewrite Ht in E; injection E as <-; exact Ht. }
  unfold Admission.fileIsAllowed, Admission.rules_of; rewrite Hg; reflexivity.
Qed.

Lemma construct_no_filter_allows_all_witness :
  exists c reg',
    Collection.construct "images" (JObj [("stores", JArr [JObj [("name", JStr "s3")]] [])]) []
    = (Ok c, reg')
    /\ Admission.fileIsAllowed c (Doc.mk 0 "run.exe" "application/x-msdownload" 99999 0 [] [] [])
       = true.
Proof.
  eexists _, _; split; [reflexivity|].
  apply (construct_no_filter_allows_all "images"
           (JObj [("stores", JArr [JObj [("name", JStr "s3")]] [])]) [] _ _ eq_refl).
  left; reflexivity.
Defined.

End ConstructProps.

(* ------------------------------------------------------------------------- *)
(** ** Sync callbacks: sequences of events *)

Lemma apply_set_matches (store storeId : string) (info : Info.t) (d : Doc.t) :
  dotless store = true ->
  copy_key_matches store storeId (Ops.apply_set (Sync.fileInfo store storeId info) d) = true.
Proof.
  intros Hd; rewrite copy_key_matches_dotless by exact Hd.
  unfold has_copy; simpl; rewrite !String.eqb_refl; reflexivity.
Qed.

Lemma find_map_same_id (store storeId : string) (info : Info.t) (l : list Doc.t) (r : Doc.t) :
  find (copy_key_matches store storeId) l = Some r ->
  exists r', find (copy_key_matches store storeId)
               (map (fun d => if Nat.eqb (Doc._id d) (Doc._id r)
                              then Ops.apply_set (Sync.fileInfo store storeId info) d else d) l)
             = Some r' /\ Doc._id r' = Doc._id r.
Proof.
  intros H.
  assert (Hd : dotless store = true)
    by exact (copy_key_matches_true store storeId r (proj2 (find_some _ _ H))).
  revert H; induction l as [|x l IH]; simpl; [discriminate|]; intros H.
  destruct (Nat.eqb (Doc._id x) (Doc._id r)) eqn:Ex.
  - rewrite (apply_set_matches store storeId info x Hd); eexists; split; [reflexivity|].
    simpl; apply Nat.eqb_eq; exact Ex.
  - destruct (copy_key_matches store storeId x) eqn:Mx.
    + injection H as <-; rewrite Nat.eqb_refl in Ex; discriminate.
    + exact (IH H).
Qed.

(** The document the insert callback appends carries the reporting
    store's descriptor. *)
Lemma insert_has_copy (store storeId : string) (info : Info.t) (buffer : list Byte.byte)
  (st st1 : fsState) :
  Sync.insert store storeId info buffer st = Ok st1 ->
  exists d, files st1 = (files st ++ [d])%list /\ next_id st1 = S (next_id st)
    /\ has_copy store storeId d = true.
Proof.
  intros H; injection H as <-; eexists; split; [reflexivity|split; [reflexivity|]].
  unfold has_copy; simpl; rewrite !String.eqb_refl; reflexivity.
Qed.

Section SyncProps.

Variables (store storeId : string).

(** X8: replaying an update event is a no-op: once the update callback has
    run, running it again with the same store, [storeId] and [info] leaves
    the state as it is. *)
Theorem sync_update_replay (info : Info.t) (st st1 : fsState)
  (H : Sync.update store storeId info st = Ok st1) :
  Sync.update store storeId info st1 = Ok st1.
Proof.
  unfold Sync.update, Ops.findOne, Ops.update in *.
  destruct (find (copy_key_matches store storeId) (files st)) as [r|] eqn:Er;
    injection H as <-; [|rewrite Er; reflexivity].
  simpl; destruct (find_map_same_id store storeId info (files st) r Er) as [r' [Er' Hid]].
  rewrite Er', Hid, map_map; f_equal; f_equal.
  apply map_ext; intros d.
  destruct (Nat.eqb (Doc._id d) (Doc._id r)) eqn:E; simpl; rewrite ?E; reflexivity.
Qed.

(** X9: after a remove event, an update or a remove event for the same
    store and [storeId] finds nothing and leaves the state as it is. *)
Theorem sync_after_remove (info : Info.t) (st st1 : fsState)
  (H : Sync.remove store storeId st = Ok st1) :
  Sync.update store storeId info st1 = Ok st1 /\ Sync.remove store storeId st1 = Ok st1.
Proof.
  unfold Sync.remove, Ops.remove in *; injection H as <-.
  assert (Hnone : forall d, In d (filter (fun d => negb (copy_key_matches store storeId d)) (files st)) ->
                            copy_key_matches store storeId d = false).
  { intros d Hd; apply filter_In in Hd; destruct Hd as [_ Hd]; apply negb_true_iff; exact Hd. }
  split.
  - unfold Sync.update, Ops.findOne; simpl.
    destruct (find _ _) as [r|] eqn:E; [|reflexivity].
    destruct (find_some _ _ E) as [Hin Hm]; rewrite (Hnone r Hin) in Hm; discriminate.
  - simpl; rewrite (filter_all_true _ _); [reflexivity|].
    intros d Hd; rewrite (Hnone d Hd); reflexivity.
Qed.

(** X10: an insert event followed by a remove event for the same store
    and [storeId]. When the store name holds no '.', it leaves the
    documents the remove event alone would leave: the inserted document is
    removed with the others. When the name holds a '.', the remove event
    removes nothing and the inserted document stays. *)
Theorem sync_insert_then_remove (info : Info.t) (buffer : list Byte.byte) (st st1 : fsState)
  (H : Sync.insert store storeId info buffer st = Ok st1) :
  (dotless store = true ->
   Sync.remove store storeId st1
   = Ok (mkState (filter (fun d => negb (copy_key_matches store storeId d)) (files st))
                 (S (next_id st))))
  /\ (dotless store = false -> Sync.remove store storeId st1 = Ok st1).
Proof.
  destruct (insert_has_copy store storeId info buffer st st1 H) as [d [Hf [Hn Hc]]].
  unfold Sync.remove, Ops.remove; split; intros Hd.
  - rewrite Hf, Hn, filter_app; cbn [filter].
    rewrite (copy_key_matches_dotless store storeId d Hd), Hc, app_nil_r; reflexivity.
  - rewrite filter_all_true; [destruct st1; reflexivity|].
    intros x _; rewrite copy_key_matches_dotted by exact Hd; reflexivity.
Qed.

End SyncProps.

Lemma sync_update_replay_witness :
  let st := mkState [Doc.mk 0 "a.png" "image/png" 10 1
                       [("s3", Copy.mk "k1" "a.png" "image/png" 10 1)] [] []] 1 in
  let info := Info.mk "b.png" "image/png" 20 2 in
  exists st1, Sync.update "s3" "k1" info st = Ok st1 /\ Sync.update "s3" "k1" info st1 = Ok st1.
Proof.
  intros st info; eexists; split; [reflexivity|].
  apply (sync_update_replay "s3" "k1" info st); reflexivity.
Defined.

Lemma sync_after_remove_witness :
  let st := mkState [Doc.mk 0 "a.png" "image/png" 10 1
                       [("s3", Copy.mk "k1" "a.png" "image/png" 10 1)] [] []] 1 in
  let info := Info.mk "b.png" "image/png" 20 2 in
  exists st1, Sync.remove "s3" "k1" st = Ok st1
    /\ Sync.update "s3" "k1" info st1 = Ok st1 /\ Sync.remove "s3" "k1" st1 = Ok st1.
Proof.
  intros st info; eexists; split; [reflexivity|].
  apply (sync_after_remove "s3" "k1" info st); reflexivity.
Defined.

Lemma sync_insert_then_remove_witness :
  let st := mkState [Doc.mk 0 "a.png" "image/png" 10 1
                       [("s3", Copy.mk "k0" "a.png" "image/png" 10 1)] [] []] 1 in
  let info := Info.mk "b.png" "image/png" 20 2 in
  exists st1, Sync.insert "s3" "k1" info [] st = Ok st1
    /\ Sync.remove "s3" "k1" st1 = Ok (mkState (files st) 2).
Proof.
  intros st info; eexists; split; [reflexivity|].
  apply (proj1 (sync_insert_then_remove "s3" "k1" info [] st _ eq_refl)); reflexivity.
Defined.

(* ------------------------------------------------------------------------- *)
(** ** Admission with the insecure allow rules *)

(** X11: with the allow rules of lines 124-141 (insecure package), the
    deny rules of lines 109-120 are the only gate: an untrusted insert
    commits exactly when the file passes the collection's filter and is
    otherwise refused with [Access denied]; an untrusted update of an
    existing document whose modifier is a [$set] of its name, type or size
    commits exactly when the current document passes the filter, whatever
    values the [$set] writes. *)
Theorem insecure_admission (c : Collection.t) (u : option string) (st : fsState) :
  (forall d, (exists st', Admission.untrusted_insert c Admission.insecure_allow u d st = Ok st')
             <-> Admission.fileIsAllowed c d = true)
  /\ (forall d, Admission.fileIsAllowed c d = false ->
      Admission.untrusted_insert c Admission.insecure_allow u d st = Throw Admission.access_denied)
  /\ (forall id m d0, find (fun d => Nat.eqb (Doc._id d) id) (files st) = Some d0 ->
      (exists st', Admission.untrusted_update c Admission.insecure_allow u id m st = Ok st')
      <-> Admission.fileIsAllowed c d0 = true).
Proof.
  split; [|split].
  - intros d; unfold Admission.untrusted_insert, Admission.deny_insert.
    change (Admission.fileIsAllowed c (Doc.mk (next_id st) (Doc.name d) (Doc.type d) (Doc.size d)
              (Doc.utime d) (Doc.copies d) (Doc.data d) (Doc.rest d)))
      with (Admission.fileIsAllowed c d).
    destruct (Admission.fileIsAllowed c d); simpl.
    + split; [reflexivity|intros _; eexists; reflexivity].
    + split; [intros [st' H]; discriminate H|discriminate].
  - intros d Hd; unfold Admission.untrusted_insert, Admission.deny_insert.
    change (Admission.fileIsAllowed c (Doc.mk (next_id st) (Doc.name d) (Doc.type d) (Doc.size d)
              (Doc.utime d) (Doc.copies d) (Doc.data d) (Doc.rest d)))
      with (Admission.fileIsAllowed c d).
    rewrite Hd; reflexivity.
  - intros id m d0 Hf; unfold Admission.untrusted_update, Admission.deny_update; rewrite Hf.
    destruct (Admission.fileIsAllowed c d0); simpl.
    + split; [reflexivity|intros _; eexists; reflexivity].
    + split; [intros [st' H]; discriminate H|discriminate].
Qed.

(* ------------------------------------------------------------------------- *)
(** ** The [.files] collection *)

Lemma list_ascii_of_string_app (s t : string) :
  list_ascii_of_string (s ++ t) = (list_ascii_of_string s ++ list_ascii_of_string t)%list.
Proof. induction s as [|c s IH]; simpl; [reflexivity|]; rewrite IH; reflexivity. Qed.

(** X12: two collections with different names keep their file records in
    different [.files] collections (line 52). *)
Theorem collectionName_injective (n1 n2 : string)
  (H : Collection.collectionName n1 = Collection.collectionName n2) : n1 = n2.
Proof.
  unfold Collection.collectionName in H.
  apply (f_equal list_ascii_of_string) in H; rewrite !list_ascii_of_string_app in H.
  apply app_inv_tail in H.
  rewrite <- (string_of_list_ascii_of_string n1), <- (string_of_list_ascii_of_string n2), H.
  reflexivity.
Qed.

Lemma collectionName_injective_witness :
  Collection.collectionName "images" = "images.files"
  /\ "images" = "images".
Proof.
  split; [reflexivity|].
  apply collectionName_injective; reflexivity.
Defined.
